(** * CryptoBot: the indicator engine and the signal classifier

    A shallow embedding of [crypto_signal_bot.py] and the properties its
    specification states about [compute_indicators] and [generate_signal].

    - [PyFloat]: Python floats as IEEE 754 binary64 values, with the three
      operations the classifier applies to them ([np.isnan], [>], [<]).
    - [Classifier]: [generate_signal], over a pandas row (a mapping from
      column label to float) in an error monad ([KeyError]).
    - [Frame]: pandas data frames as objects in a store, with [copy],
      [df[k]] and [df[k] = s]; [compute_indicators] over a library of
      indicator functions.
    - [TaSpec]: the third-party package [ta] is not part of the repository;
      its three indicators are modelled from the specification.
    - [Pipeline]: [fetch_ohlcv] from the rows the exchange answers with, and
      [main] from the candles to the verdict and timestamp it prints, with
      [dropna] and [iloc[-1]]. *)

From Stdlib Require Import ZArith QArith Qminmax Lia Lqa.
From Stdlib Require Import Floats.SpecFloat.
From stdpp Require Import base option list strings pretty gmap fin_maps.

Set Default Proof Using "Type".
Open Scope Z_scope.

(** ** Exceptions and results *)

Inductive exn :=
  | KeyError (key : string)      (* a missing label in [obj[key]] *)
  | DeadReference.               (* a reference to no object; never raised for live ones *)

Inductive result (A : Type) :=
  | Ok (a : A)
  | Raise (e : exn).
Arguments Ok {A} a.
Arguments Raise {A} e.

#[global] Instance result_ret : MRet result := λ A a, Ok a.
#[global] Instance result_bind : MBind result := λ A B f m,
  match m with Ok a => f a | Raise e => Raise e end.
#[global] Instance result_fmap : FMap result := λ A B f m,
  match m with Ok a => Ok (f a) | Raise e => Raise e end.

(** [m[key]] on a mapping with string labels. *)
Definition getitem {A} (m : gmap string A) (key : string) : result A :=
  match m !! key with
  | Some a => Ok a
  | None => Raise (KeyError key)
  end.

(** ** Python floats *)

Module PyFloat.

(** A Python [float] (and a [numpy.float64]) is a binary64 value: a
    [spec_float] within precision 53 and exponent 1024. What is proved of
    every [spec_float] holds of these. *)
Definition float := spec_float.

Definition nan : float := S754_nan.

(** [np.isnan(x)] *)
Definition isnan (x : float) : bool :=
  match x with S754_nan => true | _ => false end.

(** [x > y], [x < y] and [x == y]: false as soon as one side is NaN. *)
Definition gt (x y : float) : bool := SFltb y x.
Definition lt (x y : float) : bool := SFltb x y.
Definition eq (x y : float) : bool := SFeqb x y.

(** Literals, for examples: [of_Z n] is the float of the integer [n]. *)
Definition of_Z (n : Z) : float := binary_normalize 53 1024 n 0 false.

End PyFloat.
Export PyFloat.

(** ** The signal classifier *)

Module Classifier.

(** The [details] dictionary and the dictionary [generate_signal] returns. *)
Record Details := {
  sma_bias : string;
  rsi_bias : string;
  macd_bias : string;
  price : float;
  rsi : float;
  macd : float;
  macd_signal : float;
}.

Record Verdict := {
  overall_signal : string;
  details : Details;
}.

(** The label [f"sma_{window}"]. *)
Definition sma_label (window : Z) : string := "sma_" +:+ pretty window.

(** Lines 57-67: the SMA rule. It yields the bias and the votes it appends
    to [signal_votes]. *)
Definition sma_rule (sma_fast_val sma_slow_val : float) : string * list Z :=
  if isnan sma_fast_val || isnan sma_slow_val then ("neutral", [])
  else if gt sma_fast_val sma_slow_val then ("bullish", [1])
  else if lt sma_fast_val sma_slow_val then ("bearish", [-1])
  else ("neutral", []).

(** Lines 70-80: the RSI rule. *)
Definition rsi_rule (rsi_val rsi_upper rsi_lower : float) : string * list Z :=
  if isnan rsi_val then ("neutral", [])
  else if gt rsi_val rsi_upper then ("overbought", [-1])
  else if lt rsi_val rsi_lower then ("oversold", [1])
  else ("neutral", []).

(** Lines 84-94: the MACD rule. *)
Definition macd_rule (macd_val macd_signal_val : float) : string * list Z :=
  if isnan macd_val || isnan macd_signal_val then ("neutral", [])
  else if gt macd_val macd_signal_val then ("bullish", [1])
  else if lt macd_val macd_signal_val then ("bearish", [-1])
  else ("neutral", []).

(** [sum(signal_votes)] *)
Definition sum (votes : list Z) : Z := foldl Z.add 0 votes.

(** Lines 96-105: the overall label from the votes cast. *)
Definition aggregate (signal_votes : list Z) : string :=
  match signal_votes with
  | [] => "neutral"
  | _ =>
    let score := sum signal_votes in
    if 0 <? score then (if 2 <=? score then "strong_buy" else "buy")
    else if score <? 0 then (if score <=? -2 then "strong_sell" else "sell")
    else "neutral"
  end.

(** [generate_signal], returning next to the dictionary the final value of
    the local list [signal_votes]. *)
Definition generate_signal_votes (latest : gmap string float)
    (sma_fast sma_slow : Z) (rsi_upper rsi_lower : float)
    : result (list Z * Verdict) :=
  let signal_votes := [] in
  sma_fast_val ← getitem latest (sma_label sma_fast);
  sma_slow_val ← getitem latest (sma_label sma_slow);
  let '(sma_bias, cast) := sma_rule sma_fast_val sma_slow_val in
  let signal_votes := signal_votes ++ cast in
  rsi_val ← getitem latest "rsi";
  let '(rsi_bias, cast) := rsi_rule rsi_val rsi_upper rsi_lower in
  let signal_votes := signal_votes ++ cast in
  macd_val ← getitem latest "macd";
  macd_signal_val ← getitem latest "macd_signal";
  let '(macd_bias, cast) := macd_rule macd_val macd_signal_val in
  let signal_votes := signal_votes ++ cast in
  let overall := aggregate signal_votes in
  price ← getitem latest "close";
  mret (signal_votes,
        {| overall_signal := overall;
           details := {| sma_bias := sma_bias;
                         rsi_bias := rsi_bias;
                         macd_bias := macd_bias;
                         price := price;
                         rsi := rsi_val;
                         macd := macd_val;
                         macd_signal := macd_signal_val |} |}).

Definition generate_signal (latest : gmap string float)
    (sma_fast sma_slow : Z) (rsi_upper rsi_lower : float) : result Verdict :=
  snd <$> generate_signal_votes latest sma_fast sma_slow rsi_upper rsi_lower.

(** The votes cast on the way. *)
Definition signal_votes (latest : gmap string float)
    (sma_fast sma_slow : Z) (rsi_upper rsi_lower : float) : result (list Z) :=
  fst <$> generate_signal_votes latest sma_fast sma_slow rsi_upper rsi_lower.

(** The values [generate_signal] reads from a row. *)
Record reads (latest : gmap string float) (sma_fast sma_slow : Z)
    (f s r m g c : float) : Prop := {
  reads_sma_fast : latest !! sma_label sma_fast = Some f;
  reads_sma_slow : latest !! sma_label sma_slow = Some s;
  reads_rsi : latest !! "rsi" = Some r;
  reads_macd : latest !! "macd" = Some m;
  reads_macd_signal : latest !! "macd_signal" = Some g;
  reads_close : latest !! "close" = Some c;
}.

(** The votes the three rules cast, in the order they are appended. *)
Definition cast (f s r up lo m g : float) : list Z :=
  (sma_rule f s).2 ++ (rsi_rule r up lo).2 ++ (macd_rule m g).2.

(** The labels [overall_signal] is given in lines 96-105. *)
Definition overall_labels : list string :=
  ["strong_buy"; "buy"; "neutral"; "sell"; "strong_sell"].

End Classifier.

(** ** Data frames and the indicator engine *)

Module Frame.

(** A data frame is an object: [df.copy()] makes a new one and
    [df[key] = s] updates one in place. Objects live in a store. *)
Definition loc := positive.

Section Frame.
Context {cell : Type}.

(** The values of a [pd.Series], in the order of its index. *)
Local Abbreviation Series := (list cell).

(** A [pd.DataFrame]: the index (timestamps, in milliseconds) and the
    columns by label. *)
Record DataFrame := {
  index : list Z;
  columns : gmap string Series;
}.

Local Abbreviation store := (gmap loc DataFrame).

(** Computations that read and update the store, or raise. *)
Definition M (A : Type) : Type := store → result (A * store).

#[global] Instance M_ret : MRet M := λ A a σ, Ok (a, σ).
#[global] Instance M_bind : MBind M := λ A B f m σ,
  match m σ with
  | Ok (a, σ') => f a σ'
  | Raise e => Raise e
  end.

(** [df.copy()] *)
Definition copy (df : loc) : M loc := λ σ,
  match σ !! df with
  | Some d => let df' := fresh (dom σ) in Ok (df', <[df' := d]> σ)
  | None => Raise DeadReference
  end.

(** [df[key]] *)
Definition getcol (df : loc) (key : string) : M Series := λ σ,
  match σ !! df with
  | Some d => (λ s, (s, σ)) <$> getitem (columns d) key
  | None => Raise DeadReference
  end.

(** [df[key] = s], for a series [s] over the index of [df] *)
Definition setcol (df : loc) (key : string) (s : Series) : M unit := λ σ,
  match σ !! df with
  | Some d =>
    Ok ((), <[df := {| index := index d; columns := <[key := s]> (columns d) |}]> σ)
  | None => Raise DeadReference
  end.

(** The indicators of the package [ta], by the calls the engine makes:
    [SMAIndicator(close, window).sma_indicator()],
    [RSIIndicator(close, window).rsi()] and, for
    [m = MACD(close, window_slow, window_fast, window_sign)],
    [m.macd()], [m.macd_signal()] and [m.macd_diff()]. They read the
    series they are given and return a new one. *)
Record TaLib := {
  SMAIndicator_sma_indicator : Series → Z → Series;
  RSIIndicator_rsi : Series → Z → Series;
  MACD_macd : Series → Z → Z → Z → Series;
  MACD_macd_signal : Series → Z → Z → Z → Series;
  MACD_macd_diff : Series → Z → Z → Z → Series;
}.

(** The series a [ta] indicator returns has the index of its input. *)
Record same_index (ta : TaLib) : Prop := {
  sma_indicator_length close w :
    length (SMAIndicator_sma_indicator ta close w) = length close;
  rsi_length close w :
    length (RSIIndicator_rsi ta close w) = length close;
  macd_length close s f g :
    length (MACD_macd ta close s f g) = length close;
  macd_signal_length close s f g :
    length (MACD_macd_signal ta close s f g) = length close;
  macd_diff_length close s f g :
    length (MACD_macd_diff ta close s f g) = length close;
}.

Variable ta : TaLib.

Definition compute_indicators (df : loc)
    (sma_fast sma_slow rsi_period macd_fast macd_slow macd_signal : Z) : M loc :=
  df ← copy df;
  close ← getcol df "close";
  setcol df (Classifier.sma_label sma_fast)
    (SMAIndicator_sma_indicator ta close sma_fast);;
  close ← getcol df "close";
  setcol df (Classifier.sma_label sma_slow)
    (SMAIndicator_sma_indicator ta close sma_slow);;
  close ← getcol df "close";
  let rsi := RSIIndicator_rsi ta close rsi_period in
  setcol df "rsi" rsi;;
  close ← getcol df "close";
  let window_slow := macd_slow in
  let window_fast := macd_fast in
  let window_sign := macd_signal in
  setcol df "macd" (MACD_macd ta close window_slow window_fast window_sign);;
  setcol df "macd_signal"
    (MACD_macd_signal ta close window_slow window_fast window_sign);;
  setcol df "macd_hist"
    (MACD_macd_diff ta close window_slow window_fast window_sign);;
  mret df.

(** The frame [compute_indicators] builds from the contents [d] of its
    argument: the columns of [d] and the six indicator columns. *)
Definition indicator_columns (close : Series) (cols : gmap string Series)
    (sma_fast sma_slow rsi_period macd_fast macd_slow macd_signal : Z)
    : gmap string Series :=
  <["macd_hist" := MACD_macd_diff ta close macd_slow macd_fast macd_signal]>
  (<["macd_signal" := MACD_macd_signal ta close macd_slow macd_fast macd_signal]>
  (<["macd" := MACD_macd ta close macd_slow macd_fast macd_signal]>
  (<["rsi" := RSIIndicator_rsi ta close rsi_period]>
  (<[Classifier.sma_label sma_slow := SMAIndicator_sma_indicator ta close sma_slow]>
  (<[Classifier.sma_label sma_fast := SMAIndicator_sma_indicator ta close sma_fast]>
   cols))))).

Definition table (close : Series) (d : DataFrame)
    (sma_fast sma_slow rsi_period macd_fast macd_slow macd_signal : Z)
    : DataFrame := {|
  index := index d;
  columns := indicator_columns close (columns d)
    sma_fast sma_slow rsi_period macd_fast macd_slow macd_signal;
|}.

Definition indicator_table (d : DataFrame)
    (sma_fast sma_slow rsi_period macd_fast macd_slow macd_signal : Z)
    : result DataFrame :=
  close ← getitem (columns d) "close";
  mret (table close d
          sma_fast sma_slow rsi_period macd_fast macd_slow macd_signal).

(** The frame a call returns, read from the store it leaves. *)
Definition returned (r : result (loc * store))
    : result (option DataFrame) :=
  (λ r, r.2 !! r.1) <$> r.

(** The labels of the six indicator columns. *)
Definition indicator_labels (sma_fast sma_slow : Z) : list string :=
  [Classifier.sma_label sma_fast; Classifier.sma_label sma_slow;
   "rsi"; "macd"; "macd_signal"; "macd_hist"].

(** The value of column [key] in row [i] ([df[key].iloc[i]]). *)
Definition at_row (d : DataFrame) (key : string) (i : nat) : option cell :=
  columns d !! key ≫= (.!! i).

(** Every column of a frame has one value per index entry. *)
Definition well_formed (d : DataFrame) : Prop :=
  ∀ key s, columns d !! key = Some s → length s = length (index d).

End Frame.

(** Window lengths are positive integers. *)
Definition positive_windows (windows : list Z) : Prop :=
  Forall (λ w, 0 < w) windows.

Arguments DataFrame : clear implicits.
Arguments TaLib : clear implicits.
Arguments M : clear implicits.

Abbreviation Series cell := (list cell) (only parsing).
Abbreviation store cell := (gmap loc (DataFrame cell)) (only parsing).

End Frame.

(** ** The indicators of [ta], from the specification *)

Module TaSpec.

Local Open Scope Q_scope.

(** Modelled from the spec: the type of indicator values. The package
    [ta] (and pandas under it) is not in the repository. Section 3 gives a
    row a value or the "undefined" sentinel per indicator; the value is
    taken here as an exact rational, and [None] is "undefined". *)
Abbreviation cell := (option Q).

Definition lift2 (f : Q → Q → Q) (a b : cell) : cell :=
  x ← a; y ← b; Some (f x y).

Definition total (xs : list cell) : cell := foldr (lift2 Qplus) (Some 0) xs.

(** The arithmetic mean of a window. *)
Definition mean (xs : list cell) : cell :=
  (λ s, s / inject_Z (Z.of_nat (length xs))) <$> total xs.

(** Modelled from the spec: [SMAIndicator] of [ta], missing from the
    repository. "SMA(window=w): for row i, arithmetic mean of close prices
    over the trailing w bars ending at i, inclusive; undefined for
    i < w-1". *)
Definition sma_at (w : nat) (close : list cell) (i : nat) : cell :=
  if decide (0 < w ≤ i + 1)%nat
  then mean (take w (drop (i + 1 - w) close))
  else None.

Definition sma (close : list cell) (window : Z) : list cell :=
  (λ i, sma_at (Z.to_nat window) close i) <$> seq 0 (length close).

(** The number of undefined values a series starts with. *)
Fixpoint leading_undefined (xs : list cell) : nat :=
  match xs with
  | None :: xs' => S (leading_undefined xs')
  | _ => 0%nat
  end.

(** Exponential smoothing with factor [alpha] from the previous value on. *)
Fixpoint smooth_from (alpha : Q) (prev : cell) (xs : list cell) : list cell :=
  match xs with
  | [] => []
  | x :: xs' =>
    let y := lift2 (λ x p, alpha * x + (1 - alpha) * p) x prev in
    y :: smooth_from alpha y xs'
  end.

(** A smoothed average over [n] points, seeded with the simple average of
    the first [n] points: undefined on the first [n - 1] of them. *)
Definition smooth_seeded (alpha : Q) (n : nat) (xs : list cell) : list cell :=
  if decide (0 < n ≤ length xs)%nat
  then replicate (n - 1) None ++
       (let seed := mean (take n xs) in seed :: smooth_from alpha seed (drop n xs))
  else replicate (length xs) None.

(** The same over a series that starts undefined: its history starts at
    the first defined point. *)
Definition smooth (alpha : Q) (n : nat) (xs : list cell) : list cell :=
  let k := leading_undefined xs in
  replicate k None ++ smooth_seeded alpha n (drop k xs).

(** Modelled from the spec: the EMA inside [MACD] of [ta], missing from
    the repository. "EMA uses the standard exponential smoothing factor
    2/(n+1), seeded conventionally (e.g., simple average of the first n
    points)". *)
Definition ema (xs : list cell) (n : nat) : list cell :=
  smooth (2 / (inject_Z (Z.of_nat n) + 1)) n xs.

(** Wilder's moving average over [w] periods: smoothing factor [1/w]. *)
Definition wilder (xs : list cell) (w : nat) : list cell :=
  smooth (1 / inject_Z (Z.of_nat w)) w xs.

(** The close-to-close changes: one per row but the first. *)
Definition changes (close : list cell) : list cell :=
  zip_with (lift2 (λ prev cur, cur - prev)) close (drop 1 close).

Definition gain (d : cell) : cell := Qmax 0 <$> d.
Definition loss (d : cell) : cell := (λ d, Qmax 0 (- d)) <$> d.

(** The index from the average gain and the average loss: with no loss at
    all the index is 100. *)
Definition rsi_value (avg_gain avg_loss : cell) : cell :=
  lift2 (λ g l, if Qeq_bool l 0 then 100 else 100 - 100 / (1 + g / l))
    avg_gain avg_loss.

(** Modelled from the spec: [RSIIndicator] of [ta], missing from the
    repository. "RSI(window=w): Wilder-style relative strength index over
    trailing w periods of close-to-close changes; conventional smoothing
    (e.g., Wilder's moving average of gains/losses) [...]; undefined until
    w periods of change data exist". *)
Definition rsi (close : list cell) (window : Z) : list cell :=
  match close with
  | [] => []
  | _ :: _ =>
    let w := Z.to_nat window in
    None :: zip_with rsi_value (wilder (gain <$> changes close) w)
                               (wilder (loss <$> changes close) w)
  end.

(** Modelled from the spec: [MACD] of [ta], missing from the repository.
    "macd = EMA(close, f) - EMA(close, s); macd_signal = EMA(macd, g);
    macd_hist = macd - macd_signal [...] undefined until the slow EMA and
    then the signal EMA have enough history". *)
Definition macd (close : list cell) (window_slow window_fast window_sign : Z)
    : list cell :=
  zip_with (lift2 Qminus) (ema close (Z.to_nat window_fast))
                          (ema close (Z.to_nat window_slow)).

Definition macd_signal (close : list cell)
    (window_slow window_fast window_sign : Z) : list cell :=
  ema (macd close window_slow window_fast window_sign) (Z.to_nat window_sign).

Definition macd_diff (close : list cell)
    (window_slow window_fast window_sign : Z) : list cell :=
  zip_with (lift2 Qminus) (macd close window_slow window_fast window_sign)
                          (macd_signal close window_slow window_fast window_sign).

Definition ta : Frame.TaLib cell := {|
  Frame.SMAIndicator_sma_indicator := sma;
  Frame.RSIIndicator_rsi := rsi;
  Frame.MACD_macd := macd;
  Frame.MACD_macd_signal := macd_signal;
  Frame.MACD_macd_diff := macd_diff;
|}.

(** A series of prices, all defined. *)
Definition prices (qs : list Q) : list cell := Some <$> qs.

(** The series has a value in row [i]. *)
Definition defined_at (xs : list cell) (i : nat) : Prop :=
  ∃ q, xs !! i = Some (Some q).

(** The undefined values of the series are a leading prefix of it. *)
Definition warm (xs : list cell) : Prop :=
  ∃ k qs, xs = replicate k None ++ (Some <$> qs).

(** Once the series has a value it has one in every later row. *)
Definition stays_defined (xs : list cell) : Prop :=
  ∀ i j, (i ≤ j < length xs)%nat → defined_at xs i → defined_at xs j.

(** The value, when there is one, is not negative. *)
Definition nonneg (c : cell) : Prop := ∀ q, c = Some q → 0 <= q.

(** The value, when there is one, is between 0 and 100. *)
Definition percent (c : cell) : Prop := ∀ q, c = Some q → 0 <= q <= 100.

End TaSpec.

(** ** Sample rows and frames *)

Module Examples.

(** A row as [generate_signal] reads it, for the windows 20 and 50. *)
Definition row (sma_20 sma_50 rsi macd macd_signal close : float)
    : gmap string float :=
  list_to_map [("sma_20", sma_20); ("sma_50", sma_50); ("rsi", rsi);
               ("macd", macd); ("macd_signal", macd_signal);
               ("close", close)]%string.

(** Fast average above slow, RSI between the thresholds, MACD above its
    signal line. *)
Definition bullish_row : gmap string float :=
  row (of_Z 3) (of_Z 2) (of_Z 50) (of_Z 1) (of_Z 0) (of_Z 100).

(** The warm-up row of a one-bar series: no indicator is defined. *)
Definition nan_row : gmap string float :=
  row nan nan nan nan nan (of_Z 100).

(** Both averages equal and MACD on its signal line. *)
Definition tied_row : gmap string float :=
  row (of_Z 2) (of_Z 2) (of_Z 80) (of_Z 1) (of_Z 1) (of_Z 100).

(** Seven bars with their close prices, and a store that holds them. *)
Definition bars : Frame.DataFrame TaSpec.cell := {|
  Frame.index := [0; 60000; 120000; 180000; 240000; 300000; 360000];
  Frame.columns := {[ "close" := TaSpec.prices [1; 2; 3; 2; 5; 5; 4]%Q ]};
|}.

(** The frame of a series with no bar. *)
Definition no_bars : Frame.DataFrame TaSpec.cell := {|
  Frame.index := [];
  Frame.columns :=
    list_to_map [("open", []); ("high", []); ("low", []); ("close", []);
                 ("volume", [])]%string;
|}.

Definition heap : Frame.store TaSpec.cell := {[ 1%positive := bars ]}.

End Examples.

(** ** Reading a verdict *)

Module Verdicts.
Import Classifier.

(** The votes a bias label stands for. *)
Definition votes_of_bias (bias : string) : list Z :=
  if decide (bias = "bullish") then [1]
  else if decide (bias = "oversold") then [1]
  else if decide (bias = "bearish") then [-1]
  else if decide (bias = "overbought") then [-1]
  else [].

(** The first of [labels] that [latest] has no entry for. *)
Definition first_missing (latest : gmap string float) (labels : list string)
    : option string :=
  snd <$> list_find (λ key, latest !! key = None) labels.

(** The labels [generate_signal] reads, in the order it reads them. *)
Definition labels_read (sma_fast sma_slow : Z) : list string :=
  [sma_label sma_fast; sma_label sma_slow; "rsi"; "macd"; "macd_signal";
   "close"].

End Verdicts.

(** ** From candles to a verdict: [fetch_ohlcv] and [main] *)

Module Pipeline.
Import Frame Classifier.

(** One row of what [exchange.fetch_ohlcv] returns:
    [[timestamp, open, high, low, close, volume]], the timestamp in
    milliseconds. *)
Record Candle := {
  candle_timestamp : Z;
  candle_open : float;
  candle_high : float;
  candle_low : float;
  candle_close : float;
  candle_volume : float;
}.

(** Lines 15-21: the frame of the candles, with the timestamp column made
    the index. *)
Definition ohlcv_frame (raw : list Candle) : DataFrame float := {|
  index := candle_timestamp <$> raw;
  columns :=
    list_to_map [("open", candle_open <$> raw); ("high", candle_high <$> raw);
                 ("low", candle_low <$> raw); ("close", candle_close <$> raw);
                 ("volume", candle_volume <$> raw)]%string;
|}.

(** A new object in the store. *)
Definition alloc (d : DataFrame float) : M float loc := λ σ,
  let df := fresh (dom σ) in Ok (df, <[df := d]> σ).

(** [fetch_ohlcv], given the rows [raw] the exchange answers with. *)
Definition fetch_ohlcv (raw : list Candle) : M float loc :=
  alloc (ohlcv_frame raw).

(** Row [i] has a value that is not NaN in every column. *)
Definition complete (d : DataFrame float) (i : nat) : bool :=
  forallb (λ kc, match kc.2 !! i with
                 | Some x => negb (isnan x)
                 | None => false
                 end)
          (map_to_list (columns d)).

(** The entries of [xs] at the positions where [mask] is true. *)
Fixpoint select {A} (mask : list bool) (xs : list A) : list A :=
  match mask, xs with
  | b :: mask', x :: xs' =>
    if b then x :: select mask' xs' else select mask' xs'
  | _, _ => []
  end.

(** The rows [df.dropna()] keeps. *)
Definition kept (d : DataFrame float) : list bool :=
  complete d <$> seq 0 (length (index d)).

(** [df.dropna()]: a new frame without the rows that have a NaN. *)
Definition dropna (d : DataFrame float) : DataFrame float := {|
  index := select (kept d) (index d);
  columns := select (kept d) <$> columns d;
|}.

(** [df.iloc[i]]: row [i] as a mapping from column label to value. *)
Definition iloc (d : DataFrame float) (i : nat) : gmap string float :=
  omap (.!! i) (columns d).

(** What [main] can raise before it prints: an exception of the engine or
    the classifier, or the [IndexError] of [iloc[-1]] on a frame with no
    row. *)
Inductive raised :=
  | Exn (e : exn)
  | IndexError.

Inductive outcome (A : Type) :=
  | Returns (a : A)
  | Fails (e : raised).
Arguments Returns {A} a.
Arguments Fails {A} e.

(** [df.iloc[-1]] *)
Definition iloc_last (d : DataFrame float) : outcome (gmap string float) :=
  match length (index d) with
  | O => Fails IndexError
  | S n => Returns (iloc d n)
  end.

(** [df.index[-1]] *)
Definition index_last (d : DataFrame float) : outcome Z :=
  match last (index d) with
  | Some t => Returns t
  | None => Fails IndexError
  end.

(** Lines 149-158 of [main], on the frame [d] of indicators: the verdict
    and the timestamp that are printed. *)
Definition classify_latest (d : DataFrame float)
    (sma_fast sma_slow : Z) (rsi_upper rsi_lower : float)
    : outcome (Verdict * Z) :=
  match iloc_last (dropna d) with
  | Fails e => Fails e
  | Returns latest =>
    match generate_signal latest sma_fast sma_slow rsi_upper rsi_lower with
    | Raise e => Fails (Exn e)
    | Ok signal =>
      match index_last (dropna d) with
      | Fails e => Fails e
      | Returns timestamp => Returns (signal, timestamp)
      end
    end
  end.

Section Main.
Variable ta : TaLib float.

(** Lines 139-158 of [main], from the fetched frame [df] on. *)
Definition latest_signal (df : loc)
    (sma_fast sma_slow rsi_period : Z) (rsi_upper rsi_lower : float)
    (macd_fast macd_slow macd_signal : Z) (σ : store float)
    : outcome (Verdict * Z) :=
  match compute_indicators ta df sma_fast sma_slow rsi_period
          macd_fast macd_slow macd_signal σ with
  | Raise e => Fails (Exn e)
  | Ok (df, σ) =>
    match σ !! df with
    | None => Fails (Exn DeadReference)
    | Some d => classify_latest d sma_fast sma_slow rsi_upper rsi_lower
    end
  end.

(** Lines 138-158 of [main], for the rows [raw] the exchange answers
    with. *)
Definition main (raw : list Candle)
    (sma_fast sma_slow rsi_period : Z) (rsi_upper rsi_lower : float)
    (macd_fast macd_slow macd_signal : Z) (σ : store float)
    : outcome (Verdict * Z) :=
  match fetch_ohlcv raw σ with
  | Raise e => Fails (Exn e)
  | Ok (df, σ) =>
    latest_signal df sma_fast sma_slow rsi_period rsi_upper rsi_lower
      macd_fast macd_slow macd_signal σ
  end.

End Main.

End Pipeline.

(** ** Sample candles *)

Module PipelineExamples.
Import Frame Pipeline.

(** A stand-in for [ta] on floats: every indicator is the close series
    with its first [window - 1] rows undefined. *)
Definition after_warm_up (close : list float) (window : Z) : list float :=
  let k := Nat.min (Z.to_nat window - 1) (length close) in
  replicate k nan ++ drop k close.

Definition echo : TaLib float := {|
  SMAIndicator_sma_indicator := after_warm_up;
  RSIIndicator_rsi := after_warm_up;
  MACD_macd close window_slow window_fast window_sign :=
    after_warm_up close window_slow;
  MACD_macd_signal close window_slow window_fast window_sign :=
    after_warm_up close (window_slow + window_sign - 1);
  MACD_macd_diff close window_slow window_fast window_sign :=
    after_warm_up close (window_slow + window_sign - 1);
|}.

Definition candle (t c : Z) : Candle := {|
  candle_timestamp := t;
  candle_open := of_Z c; candle_high := of_Z (c + 1);
  candle_low := of_Z (c - 1); candle_close := of_Z c;
  candle_volume := of_Z 10;
|}.

(** Four candles, one minute apart. *)
Definition candles : list Candle :=
  [candle 0 100; candle 60000 101; candle 120000 103; candle 180000 102].

(** The verdict on the sample candles: the stand-in indicators echo the
    last close. *)
Definition sample_verdict : Classifier.Verdict := {|
  Classifier.overall_signal := "sell";
  Classifier.details := {|
    Classifier.sma_bias := "neutral"; Classifier.rsi_bias := "overbought";
    Classifier.macd_bias := "neutral"; Classifier.price := of_Z 102;
    Classifier.rsi := of_Z 102; Classifier.macd := of_Z 102;
    Classifier.macd_signal := of_Z 102 |} |}.

End PipelineExamples.

(** ** Facts about floats *)

Module PyFloatFacts.

Lemma SFcompare_Eq_sym (x y : float) :
  SFcompare x y = Some Eq → SFcompare y x = Some Eq.
Proof.
  destruct x as [sx|sx| |sx mx ex], y as [sy|sy| |sy my ey]; simpl;
    try done; try (by destruct sx); try (by destruct sy);
    try (by destruct sx, sy).
  destruct sx, sy; try done.
  - destruct (ex ?= ey) eqn:He; try done.
    apply Z.compare_eq in He as ->.
    destruct (Pos.compare_cont Eq mx my) eqn:Hm; try done.
    apply Pos.compare_eq in Hm as ->.
    by rewrite Z.compare_refl, Pos.compare_cont_refl.
  - destruct (ex ?= ey) eqn:He; try done.
    apply Z.compare_eq in He as ->.
    destruct (Pos.compare_cont Eq mx my) eqn:Hm; try done.
    apply Pos.compare_eq in Hm as ->.
    by rewrite Z.compare_refl, Pos.compare_cont_refl.
Qed.

(** Two equal floats are neither above nor below each other, and neither
    is NaN. *)
Lemma eq_not_gt_lt (x y : float) :
  eq x y = true →
  isnan x = false ∧ isnan y = false ∧ gt x y = false ∧ lt x y = false.
Proof.
  unfold eq, gt, lt, SFeqb, SFltb. intros H.
  destruct (SFcompare x y) as [[]|] eqn:Hxy; try done.
  rewrite (SFcompare_Eq_sym _ _ Hxy).
  by destruct x, y.
Qed.

End PyFloatFacts.

(** ** The classifier: aggregation, undefined fields, ties *)

Module SignalProps.
Import Classifier.

Lemma generate_signal_votes_reads latest sma_fast sma_slow up lo f s r m g c :
  reads latest sma_fast sma_slow f s r m g c →
  generate_signal_votes latest sma_fast sma_slow up lo =
    Ok (cast f s r up lo m g,
        {| overall_signal := aggregate (cast f s r up lo m g);
           details := {| sma_bias := (sma_rule f s).1;
                         rsi_bias := (rsi_rule r up lo).1;
                         macd_bias := (macd_rule m g).1;
                         price := c; rsi := r; macd := m;
                         macd_signal := g |} |}).
Proof.
  intros [Hf Hs Hr Hm Hg Hc].
  unfold generate_signal_votes, getitem, cast.
  rewrite Hf, Hs, Hr, Hm, Hg, Hc. simpl.
  destruct (sma_rule f s), (rsi_rule r up lo), (macd_rule m g). simpl.
  by rewrite <- app_assoc.
Qed.

Lemma generate_signal_reads latest sma_fast sma_slow up lo f s r m g c :
  reads latest sma_fast sma_slow f s r m g c →
  generate_signal latest sma_fast sma_slow up lo =
    Ok {| overall_signal := aggregate (cast f s r up lo m g);
          details := {| sma_bias := (sma_rule f s).1;
                        rsi_bias := (rsi_rule r up lo).1;
                        macd_bias := (macd_rule m g).1;
                        price := c; rsi := r; macd := m;
                        macd_signal := g |} |}.
Proof.
  intros H. unfold generate_signal.
  by rewrite (generate_signal_votes_reads _ _ _ up lo _ _ _ _ _ _ H).
Qed.

Lemma signal_votes_reads latest sma_fast sma_slow up lo f s r m g c :
  reads latest sma_fast sma_slow f s r m g c →
  signal_votes latest sma_fast sma_slow up lo = Ok (cast f s r up lo m g).
Proof.
  intros H. unfold signal_votes.
  by rewrite (generate_signal_votes_reads _ _ _ up lo _ _ _ _ _ _ H).
Qed.

(** Each rule casts at most one vote, and a vote is [1] or [-1]. *)
Lemma sma_rule_votes f s :
  (sma_rule f s).2 = [] ∨ (sma_rule f s).2 = [1] ∨ (sma_rule f s).2 = [-1].
Proof. unfold sma_rule. repeat case_match; simpl; auto. Qed.

Lemma rsi_rule_votes r up lo :
  (rsi_rule r up lo).2 = [] ∨ (rsi_rule r up lo).2 = [1]
  ∨ (rsi_rule r up lo).2 = [-1].
Proof. unfold rsi_rule. repeat case_match; simpl; auto. Qed.

Lemma macd_rule_votes m g :
  (macd_rule m g).2 = [] ∨ (macd_rule m g).2 = [1] ∨ (macd_rule m g).2 = [-1].
Proof. unfold macd_rule. repeat case_match; simpl; auto. Qed.

Lemma cast_votes f s r up lo m g :
  Forall (λ v, v = 1 ∨ v = -1) (cast f s r up lo m g).
Proof.
  unfold cast.
  destruct (sma_rule_votes f s) as [->|[->| ->]],
           (rsi_rule_votes r up lo) as [->|[->| ->]],
           (macd_rule_votes m g) as [->|[->| ->]];
    simpl; repeat first [apply Forall_nil_2 | apply Forall_cons_2]; auto.
Qed.

(** The overall label as the specification words it. *)
Lemma aggregate_spec (votes : list Z) :
  let score := sum votes in
  (votes = [] → aggregate votes = "neutral") ∧
  (votes ≠ [] → 2 ≤ score → aggregate votes = "strong_buy") ∧
  (votes ≠ [] → score = 1 → aggregate votes = "buy") ∧
  (votes ≠ [] → score ≤ -2 → aggregate votes = "strong_sell") ∧
  (votes ≠ [] → score = -1 → aggregate votes = "sell") ∧
  (votes ≠ [] → score = 0 → aggregate votes = "neutral").
Proof.
  intros score. unfold aggregate. fold score.
  destruct votes as [|v votes]; [by repeat split|].
  split; [done|].
  repeat split; intros _ Hs;
    repeat (case_match; try done);
    repeat match goal with
    | H : (_ <? _) = _ |- _ => first [apply Z.ltb_lt in H | apply Z.ltb_ge in H]
    | H : (_ <=? _) = _ |- _ => first [apply Z.leb_le in H | apply Z.leb_gt in H]
    end; lia.
Qed.

(** C1: for every row that has the fields, [generate_signal] returns a
    verdict whose overall label comes from the votes that were cast alone:
    with no vote it is "neutral"; otherwise, for [score] the sum of the
    votes, [score >= 2] gives "strong_buy", [score = 1] "buy",
    [score <= -2] "strong_sell", [score = -1] "sell" and [score = 0]
    "neutral". The votes are those of the three rules, each [1] or [-1]. *)
Theorem generate_signal_aggregates_cast_votes
    latest sma_fast sma_slow rsi_upper rsi_lower f s r m g c :
  reads latest sma_fast sma_slow f s r m g c →
  ∃ votes v,
    generate_signal latest sma_fast sma_slow rsi_upper rsi_lower = Ok v ∧
    signal_votes latest sma_fast sma_slow rsi_upper rsi_lower = Ok votes ∧
    votes = (sma_rule f s).2 ++ (rsi_rule r rsi_upper rsi_lower).2
              ++ (macd_rule m g).2 ∧
    Forall (λ x, x = 1 ∨ x = -1) votes ∧
    let score := sum votes in
    (votes = [] → overall_signal v = "neutral") ∧
    (votes ≠ [] → 2 ≤ score → overall_signal v = "strong_buy") ∧
    (votes ≠ [] → score = 1 → overall_signal v = "buy") ∧
    (votes ≠ [] → score ≤ -2 → overall_signal v = "strong_sell") ∧
    (votes ≠ [] → score = -1 → overall_signal v = "sell") ∧
    (votes ≠ [] → score = 0 → overall_signal v = "neutral").
Proof.
  intros H. eexists _, _.
  split; [by eapply generate_signal_reads|].
  split; [by eapply signal_votes_reads|].
  split; [done|]. split; [apply cast_votes|].
  apply aggregate_spec.
Qed.

Lemma generate_signal_aggregates_cast_votes_witness :
  ∃ votes v,
    generate_signal Examples.bullish_row 20 50 (of_Z 70) (of_Z 30) = Ok v ∧
    signal_votes Examples.bullish_row 20 50 (of_Z 70) (of_Z 30) = Ok votes ∧
    votes = (sma_rule (of_Z 3) (of_Z 2)).2
              ++ (rsi_rule (of_Z 50) (of_Z 70) (of_Z 30)).2
              ++ (macd_rule (of_Z 1) (of_Z 0)).2 ∧
    Forall (λ x, x = 1 ∨ x = -1) votes ∧
    let score := sum votes in
    (votes = [] → overall_signal v = "neutral") ∧
    (votes ≠ [] → 2 ≤ score → overall_signal v = "strong_buy") ∧
    (votes ≠ [] → score = 1 → overall_signal v = "buy") ∧
    (votes ≠ [] → score ≤ -2 → overall_signal v = "strong_sell") ∧
    (votes ≠ [] → score = -1 → overall_signal v = "sell") ∧
    (votes ≠ [] → score = 0 → overall_signal v = "neutral").
Proof.
  apply (generate_signal_aggregates_cast_votes Examples.bullish_row 20 50
           (of_Z 70) (of_Z 30) _ _ _ _ _ (of_Z 100)).
  split; vm_compute; reflexivity.
Defined.

Example bullish_row_strong_buy :
  overall_signal <$> generate_signal Examples.bullish_row 20 50 (of_Z 70) (of_Z 30)
  = Ok "strong_buy".
Proof. vm_compute. reflexivity. Qed.

(** C3: in every row, an undefined (NaN) field takes its indicator out of
    the vote: the bias of that indicator is "neutral" and the votes cast are
    those of the other indicators alone, from which the overall label is
    computed. *)
Theorem generate_signal_excludes_undefined
    latest sma_fast sma_slow rsi_upper rsi_lower f s r m g c :
  reads latest sma_fast sma_slow f s r m g c →
  ∃ votes v,
    generate_signal latest sma_fast sma_slow rsi_upper rsi_lower = Ok v ∧
    signal_votes latest sma_fast sma_slow rsi_upper rsi_lower = Ok votes ∧
    overall_signal v = aggregate votes ∧
    (isnan f = true ∨ isnan s = true →
       sma_bias (details v) = "neutral" ∧
       votes = (rsi_rule r rsi_upper rsi_lower).2 ++ (macd_rule m g).2) ∧
    (isnan r = true →
       rsi_bias (details v) = "neutral" ∧
       votes = (sma_rule f s).2 ++ (macd_rule m g).2) ∧
    (isnan m = true ∨ isnan g = true →
       macd_bias (details v) = "neutral" ∧
       votes = (sma_rule f s).2 ++ (rsi_rule r rsi_upper rsi_lower).2).
Proof.
  intros H. eexists _, _.
  split; [by eapply generate_signal_reads|].
  split; [by eapply signal_votes_reads|].
  split; [done|]. unfold cast. simpl.
  split; [|split].
  - intros Hnan. unfold sma_rule.
    assert (isnan f || isnan s = true) as ->
      by (destruct Hnan as [-> | ->]; by rewrite ?orb_true_r).
    done.
  - intros Hnan. unfold rsi_rule. by rewrite Hnan.
  - intros Hnan. unfold macd_rule.
    assert (isnan m || isnan g = true) as ->
      by (destruct Hnan as [-> | ->]; by rewrite ?orb_true_r).
    simpl. by rewrite !app_nil_r.
Qed.

Lemma generate_signal_excludes_undefined_witness :
  ∃ votes v,
    generate_signal Examples.nan_row 20 50 (of_Z 70) (of_Z 30) = Ok v ∧
    signal_votes Examples.nan_row 20 50 (of_Z 70) (of_Z 30) = Ok votes ∧
    overall_signal v = aggregate votes ∧
    (isnan nan = true ∨ isnan nan = true →
       sma_bias (details v) = "neutral" ∧
       votes = (rsi_rule nan (of_Z 70) (of_Z 30)).2 ++ (macd_rule nan nan).2) ∧
    (isnan nan = true →
       rsi_bias (details v) = "neutral" ∧
       votes = (sma_rule nan nan).2 ++ (macd_rule nan nan).2) ∧
    (isnan nan = true ∨ isnan nan = true →
       macd_bias (details v) = "neutral" ∧
       votes = (sma_rule nan nan).2 ++ (rsi_rule nan (of_Z 70) (of_Z 30)).2).
Proof.
  apply (generate_signal_excludes_undefined Examples.nan_row 20 50
           (of_Z 70) (of_Z 30) nan nan nan nan nan (of_Z 100)).
  split; vm_compute; reflexivity.
Defined.

(** C4: in every row, two averages that compare equal give the SMA bias
    "neutral" and no SMA vote, and a MACD that compares equal to its signal
    line gives the MACD bias "neutral" and no MACD vote. (Values that
    compare equal are defined: NaN equals nothing.) *)
Theorem generate_signal_ties_are_neutral
    latest sma_fast sma_slow rsi_upper rsi_lower f s r m g c :
  reads latest sma_fast sma_slow f s r m g c →
  ∃ votes v,
    generate_signal latest sma_fast sma_slow rsi_upper rsi_lower = Ok v ∧
    signal_votes latest sma_fast sma_slow rsi_upper rsi_lower = Ok votes ∧
    overall_signal v = aggregate votes ∧
    (eq f s = true →
       isnan f = false ∧ isnan s = false ∧
       sma_bias (details v) = "neutral" ∧
       votes = (rsi_rule r rsi_upper rsi_lower).2 ++ (macd_rule m g).2) ∧
    (eq m g = true →
       isnan m = false ∧ isnan g = false ∧
       macd_bias (details v) = "neutral" ∧
       votes = (sma_rule f s).2 ++ (rsi_rule r rsi_upper rsi_lower).2).
Proof.
  intros H. eexists _, _.
  split; [by eapply generate_signal_reads|].
  split; [by eapply signal_votes_reads|].
  split; [done|]. unfold cast. simpl. split.
  - intros (Hf & Hs & Hgt & Hlt)%PyFloatFacts.eq_not_gt_lt.
    unfold sma_rule. by rewrite Hf, Hs, Hgt, Hlt.
  - intros (Hm & Hg & Hgt & Hlt)%PyFloatFacts.eq_not_gt_lt.
    unfold macd_rule. rewrite Hm, Hg, Hgt, Hlt. simpl.
    by rewrite !app_nil_r.
Qed.

Lemma generate_signal_ties_are_neutral_witness :
  ∃ votes v,
    generate_signal Examples.tied_row 20 50 (of_Z 70) (of_Z 30) = Ok v ∧
    signal_votes Examples.tied_row 20 50 (of_Z 70) (of_Z 30) = Ok votes ∧
    overall_signal v = aggregate votes ∧
    (eq (of_Z 2) (of_Z 2) = true →
       isnan (of_Z 2) = false ∧ isnan (of_Z 2) = false ∧
       sma_bias (details v) = "neutral" ∧
       votes = (rsi_rule (of_Z 80) (of_Z 70) (of_Z 30)).2
                 ++ (macd_rule (of_Z 1) (of_Z 1)).2) ∧
    (eq (of_Z 1) (of_Z 1) = true →
       isnan (of_Z 1) = false ∧ isnan (of_Z 1) = false ∧
       macd_bias (details v) = "neutral" ∧
       votes = (sma_rule (of_Z 2) (of_Z 2)).2
                 ++ (rsi_rule (of_Z 80) (of_Z 70) (of_Z 30)).2).
Proof.
  apply (generate_signal_ties_are_neutral Examples.tied_row 20 50
           (of_Z 70) (of_Z 30) _ _ (of_Z 80) _ _ (of_Z 100)).
  split; vm_compute; reflexivity.
Defined.

(** On the tied row only the RSI rule votes: overbought, hence "sell". *)
Example tied_row_sell :
  generate_signal_votes Examples.tied_row 20 50 (of_Z 70) (of_Z 30)
  = Ok ([-1],
        {| overall_signal := "sell";
           details := {| sma_bias := "neutral"; rsi_bias := "overbought";
                         macd_bias := "neutral"; price := of_Z 100;
                         rsi := of_Z 80; macd := of_Z 1;
                         macd_signal := of_Z 1 |} |}).
Proof. vm_compute. reflexivity. Qed.

Lemma aggregate_label (votes : list Z) : aggregate votes ∈ overall_labels.
Proof.
  unfold aggregate, overall_labels.
  destruct votes; repeat case_match; set_solver.
Qed.

(** Whenever [generate_signal] returns, the row had the fields. *)
Lemma generate_signal_Ok_reads latest sma_fast sma_slow up lo v :
  generate_signal latest sma_fast sma_slow up lo = Ok v →
  ∃ f s r m g c, reads latest sma_fast sma_slow f s r m g c.
Proof.
  unfold generate_signal, generate_signal_votes, getitem.
  destruct (latest !! sma_label sma_fast) as [f|] eqn:Hf; [|done].
  destruct (latest !! sma_label sma_slow) as [s|] eqn:Hs; [|done].
  simpl. destruct (sma_rule f s).
  destruct (latest !! "rsi") as [r|] eqn:Hr; [|done].
  simpl. destruct (rsi_rule r up lo).
  destruct (latest !! "macd") as [m|] eqn:Hm; [|done].
  destruct (latest !! "macd_signal") as [g|] eqn:Hg; [|done].
  simpl. destruct (macd_rule m g).
  destruct (latest !! "close") as [c|] eqn:Hc; [|done].
  intros _. by exists f, s, r, m, g, c.
Qed.

Lemma generate_signal_Ok_label latest sma_fast sma_slow up lo v :
  generate_signal latest sma_fast sma_slow up lo = Ok v →
  overall_signal v ∈ overall_labels.
Proof.
  intros Hv.
  destruct (generate_signal_Ok_reads _ _ _ _ _ _ Hv) as (f&s&r&m&g&c&H).
  rewrite (generate_signal_reads _ _ _ up lo _ _ _ _ _ _ H) in Hv.
  injection Hv as <-. apply aggregate_label.
Qed.

(** C5, as the code has it: in every row the overall signal is a single
    label out of five: "strong_buy", "buy", "neutral", "sell" and
    "strong_sell". *)
Theorem generate_signal_overall_is_one_of_five
    latest sma_fast sma_slow rsi_upper rsi_lower f s r m g c :
  reads latest sma_fast sma_slow f s r m g c →
  ∃ v, generate_signal latest sma_fast sma_slow rsi_upper rsi_lower = Ok v ∧
       overall_signal v ∈
         ["strong_buy"; "buy"; "neutral"; "sell"; "strong_sell"].
Proof.
  intros H. eexists. split; [by eapply generate_signal_reads|].
  apply aggregate_label.
Qed.

Lemma generate_signal_overall_is_one_of_five_witness :
  ∃ v, generate_signal Examples.bullish_row 20 50 (of_Z 70) (of_Z 30) = Ok v ∧
       overall_signal v ∈
         ["strong_buy"; "buy"; "neutral"; "sell"; "strong_sell"].
Proof.
  apply (generate_signal_overall_is_one_of_five Examples.bullish_row 20 50
           (of_Z 70) (of_Z 30) (of_Z 3) (of_Z 2) (of_Z 50) (of_Z 1) (of_Z 0)
           (of_Z 100)).
  split; vm_compute; reflexivity.
Defined.

(** Each of the five labels is the overall signal of some row. *)
Lemma overall_labels_attained (label : string) :
  label ∈ overall_labels →
  ∃ latest v, generate_signal latest 20 50 (of_Z 70) (of_Z 30) = Ok v ∧
              overall_signal v = label.
Proof.
  unfold overall_labels. rewrite !elem_of_cons, elem_of_nil.
  intros [->|[->|[->|[->|[->|[]]]]]].
  - exists Examples.bullish_row. eexists. split; [vm_compute; reflexivity|done].
  - exists (Examples.row (of_Z 3) (of_Z 2) (of_Z 50) (of_Z 1) (of_Z 1) (of_Z 9)).
    eexists. split; [vm_compute; reflexivity|done].
  - exists Examples.nan_row. eexists. split; [vm_compute; reflexivity|done].
  - exists Examples.tied_row. eexists. split; [vm_compute; reflexivity|done].
  - exists (Examples.row (of_Z 2) (of_Z 3) (of_Z 50) (of_Z 0) (of_Z 1) (of_Z 9)).
    eexists. split; [vm_compute; reflexivity|done].
Qed.

(** C5, as the specification words it, fails: the labels the overall
    signal takes are not seven categories. No list of seven distinct
    labels is the set of values of [overall_signal]. *)
Lemma generate_signal_overall_not_seven :
  ¬ ∃ categories : list string,
      NoDup categories ∧ length categories = 7%nat ∧
      ∀ label, label ∈ categories ↔
        ∃ latest sma_fast sma_slow rsi_upper rsi_lower v,
          generate_signal latest sma_fast sma_slow rsi_upper rsi_lower = Ok v ∧
          overall_signal v = label.
Proof.
  intros (cats & Hnd & Hlen & Hcats).
  assert (cats ⊆+ overall_labels) as Hsub.
  { apply NoDup_submseteq; [done|]. intros label Hin.
    apply Hcats in Hin as (latest & a & b & up & lo & v & Hv & <-).
    by eapply generate_signal_Ok_label. }
  apply submseteq_length in Hsub. rewrite Hlen in Hsub.
  simpl in Hsub. lia.
Qed.

(** C10: on a row whose five indicator fields are all NaN,
    [generate_signal] does not raise: it returns the overall signal
    "neutral" with the three biases "neutral", and the values of [rsi],
    [macd] and [macd_signal] of the row go into the details as they are. *)
Theorem generate_signal_all_undefined
    latest sma_fast sma_slow rsi_upper rsi_lower f s r m g c :
  reads latest sma_fast sma_slow f s r m g c →
  isnan f = true → isnan s = true → isnan r = true →
  isnan m = true → isnan g = true →
  signal_votes latest sma_fast sma_slow rsi_upper rsi_lower = Ok [] ∧
  generate_signal latest sma_fast sma_slow rsi_upper rsi_lower =
    Ok {| overall_signal := "neutral";
          details := {| sma_bias := "neutral"; rsi_bias := "neutral";
                        macd_bias := "neutral"; price := c;
                        rsi := r; macd := m; macd_signal := g |} |} ∧
  r = nan ∧ m = nan ∧ g = nan.
Proof.
  intros H Hf Hs Hr Hm Hg.
  rewrite (signal_votes_reads _ _ _ rsi_upper rsi_lower _ _ _ _ _ _ H).
  rewrite (generate_signal_reads _ _ _ rsi_upper rsi_lower _ _ _ _ _ _ H).
  unfold cast, sma_rule, rsi_rule, macd_rule. rewrite Hf, Hr, Hm. simpl.
  repeat split; [by destruct r | by destruct m | by destruct g].
Qed.

Lemma generate_signal_all_undefined_witness :
  signal_votes Examples.nan_row 20 50 (of_Z 70) (of_Z 30) = Ok [] ∧
  generate_signal Examples.nan_row 20 50 (of_Z 70) (of_Z 30) =
    Ok {| overall_signal := "neutral";
          details := {| sma_bias := "neutral"; rsi_bias := "neutral";
                        macd_bias := "neutral"; price := of_Z 100;
                        rsi := nan; macd := nan; macd_signal := nan |} |} ∧
  nan = nan ∧ nan = nan ∧ nan = nan.
Proof.
  apply (generate_signal_all_undefined Examples.nan_row 20 50
           (of_Z 70) (of_Z 30) nan nan nan nan nan (of_Z 100));
    [split|..]; vm_compute; reflexivity.
Defined.

End SignalProps.

(** ** The engine: what [compute_indicators] does to the store *)

Module FrameProps.
Import Frame.

Lemma sma_label_inj (a b : Z) :
  Classifier.sma_label a = Classifier.sma_label b → a = b.
Proof.
  unfold Classifier.sma_label. intros H. simplify_eq/=.
  by eapply (inj pretty).
Qed.

Lemma sma_label_fresh (w : Z) :
  Classifier.sma_label w ∉
    ["open"; "high"; "low"; "close"; "volume";
     "rsi"; "macd"; "macd_signal"; "macd_hist"].
Proof.
  unfold Classifier.sma_label. rewrite !not_elem_of_cons.
  repeat split; try done. apply not_elem_of_nil.
Qed.

Section Engine.
Context {cell : Type} (ta : TaLib cell).
Implicit Types (σ : store cell) (d : DataFrame cell) (df : loc).

Lemma copy_run σ df d :
  σ !! df = Some d →
  copy df σ = Ok (fresh (dom σ), <[fresh (dom σ) := d]> σ).
Proof. unfold copy. by intros ->. Qed.

Lemma getcol_run σ df d key s :
  σ !! df = Some d → columns d !! key = Some s →
  getcol df key σ = Ok (s, σ).
Proof. unfold getcol, getitem. by intros -> ->. Qed.

Lemma getcol_missing σ df d key :
  σ !! df = Some d → columns d !! key = None →
  getcol df key σ = Raise (KeyError key).
Proof. unfold getcol, getitem. by intros -> ->. Qed.

Lemma setcol_run σ df d key s :
  σ !! df = Some d →
  setcol df key s σ =
    Ok ((), <[df := {| index := index d;
                       columns := <[key := s]> (columns d) |}]> σ).
Proof. unfold setcol. by intros ->. Qed.

Lemma bind_run {A B} (m : M cell A) (f : A → M cell B) σ a σ' :
  m σ = Ok (a, σ') → (m ≫= f) σ = f a σ'.
Proof. unfold mbind, M_bind. by intros ->. Qed.

Lemma fresh_unused σ : σ !! fresh (dom σ) = None.
Proof. apply not_elem_of_dom, is_fresh. Qed.

(** The call allocates one new frame and fills it with
    [indicator_table]; it raises when there is no [close] column. *)
Lemma compute_indicators_run σ df d
    (sma_fast sma_slow rsi_period macd_fast macd_slow macd_signal : Z) :
  σ !! df = Some d →
  compute_indicators ta df sma_fast sma_slow rsi_period
      macd_fast macd_slow macd_signal σ =
    t ← indicator_table ta d sma_fast sma_slow rsi_period
           macd_fast macd_slow macd_signal;
    mret (fresh (dom σ), <[fresh (dom σ) := t]> σ).
Proof.
  intros Hdf. unfold compute_indicators, indicator_table, getitem.
  set (r := fresh (dom σ)).
  rewrite (bind_run _ _ _ _ _ (copy_run _ _ _ Hdf)). fold r.
  destruct (columns d !! "close") as [close|] eqn:Hclose; simpl.
  2:{ unfold mbind at 1, M_bind.
      erewrite getcol_missing; [done|apply lookup_insert_eq|done]. }
  assert (∀ w, Classifier.sma_label w ≠ "close") as Hne.
  { intros w Hw. apply (sma_label_fresh w). rewrite <- Hw at 1.
    set_solver. }
  erewrite bind_run;
    [|eapply getcol_run; [apply lookup_insert_eq|done]].
  erewrite bind_run; [|eapply setcol_run; apply lookup_insert_eq].
  rewrite insert_insert_eq. simpl.
  erewrite bind_run;
    [|eapply getcol_run; [apply lookup_insert_eq|simpl; by rewrite lookup_insert_ne]].
  erewrite bind_run; [|eapply setcol_run; apply lookup_insert_eq].
  rewrite insert_insert_eq. simpl.
  erewrite bind_run;
    [|eapply getcol_run;
      [apply lookup_insert_eq|simpl; by rewrite !lookup_insert_ne]].
  erewrite bind_run; [|eapply setcol_run; apply lookup_insert_eq].
  rewrite insert_insert_eq. simpl.
  erewrite bind_run;
    [|eapply getcol_run;
      [apply lookup_insert_eq|simpl; by rewrite !lookup_insert_ne]].
  erewrite bind_run; [|eapply setcol_run; apply lookup_insert_eq].
  rewrite insert_insert_eq. simpl.
  erewrite bind_run; [|eapply setcol_run; apply lookup_insert_eq].
  rewrite insert_insert_eq. simpl.
  erewrite bind_run; [|eapply setcol_run; apply lookup_insert_eq].
  rewrite insert_insert_eq. simpl.
  done.
Qed.

(** *** The columns of the table *)

Section Columns.
Context (close : list cell) (cols : gmap string (list cell)).
Context (sma_fast sma_slow rsi_period macd_fast macd_slow macd_signal : Z).

Local Abbreviation table_columns :=
  (indicator_columns ta close cols
     sma_fast sma_slow rsi_period macd_fast macd_slow macd_signal).

Lemma lookup_macd_hist :
  table_columns !! "macd_hist"
  = Some (MACD_macd_diff ta close macd_slow macd_fast macd_signal).
Proof. apply lookup_insert_eq. Qed.

Lemma lookup_macd_signal :
  table_columns !! "macd_signal"
  = Some (MACD_macd_signal ta close macd_slow macd_fast macd_signal).
Proof.
  unfold indicator_columns.
  rewrite lookup_insert_ne by done. apply lookup_insert_eq.
Qed.

Lemma lookup_macd :
  table_columns !! "macd"
  = Some (MACD_macd ta close macd_slow macd_fast macd_signal).
Proof.
  unfold indicator_columns.
  rewrite !lookup_insert_ne by done. apply lookup_insert_eq.
Qed.

Lemma lookup_rsi :
  table_columns !! "rsi" = Some (RSIIndicator_rsi ta close rsi_period).
Proof.
  unfold indicator_columns.
  rewrite !lookup_insert_ne by done. apply lookup_insert_eq.
Qed.

Lemma sma_label_not_fixed (w : Z) (key : string) :
  key ∈ ["open"; "high"; "low"; "close"; "volume";
         "rsi"; "macd"; "macd_signal"; "macd_hist"] →
  key ≠ Classifier.sma_label w.
Proof. intros Hin ->. by apply (sma_label_fresh w). Qed.

Lemma lookup_sma_slow :
  table_columns !! Classifier.sma_label sma_slow
  = Some (SMAIndicator_sma_indicator ta close sma_slow).
Proof.
  unfold indicator_columns.
  rewrite !lookup_insert_ne by (apply sma_label_not_fixed; set_solver).
  apply lookup_insert_eq.
Qed.

Lemma lookup_sma_fast :
  table_columns !! Classifier.sma_label sma_fast
  = Some (SMAIndicator_sma_indicator ta close sma_fast).
Proof.
  unfold indicator_columns.
  rewrite !lookup_insert_ne by (apply sma_label_not_fixed; set_solver).
  destruct (decide (sma_slow = sma_fast)) as [->|Hne].
  - apply lookup_insert_eq.
  - rewrite lookup_insert_ne
      by (intros Heq; by apply sma_label_inj in Heq).
    apply lookup_insert_eq.
Qed.

(** A column of the table is an indicator column or a column of the
    input. *)
Lemma lookup_table_columns key s :
  table_columns !! key = Some s →
  (key ∈ indicator_labels sma_fast sma_slow ∧
   s ∈ [SMAIndicator_sma_indicator ta close sma_fast;
        SMAIndicator_sma_indicator ta close sma_slow;
        RSIIndicator_rsi ta close rsi_period;
        MACD_macd ta close macd_slow macd_fast macd_signal;
        MACD_macd_signal ta close macd_slow macd_fast macd_signal;
        MACD_macd_diff ta close macd_slow macd_fast macd_signal])
  ∨ cols !! key = Some s.
Proof.
  unfold indicator_columns, indicator_labels.
  rewrite !lookup_insert. repeat case_decide; simplify_eq/=;
    intros; simplify_eq/=; first [by right | left; set_solver].
Qed.

End Columns.

(** *** Frame and purity *)

(** C8: [compute_indicators] leaves the store as it was but for the one
    new frame it returns: the frame it was given is unchanged, and the
    frame it returns is a function of the contents of that frame and of
    the window lengths alone, the same in any store and under any
    reference. *)
Theorem compute_indicators_no_side_effects σ df d
    (sma_fast sma_slow rsi_period macd_fast macd_slow macd_signal : Z) :
  σ !! df = Some d →
  let run := compute_indicators ta df sma_fast sma_slow rsi_period
               macd_fast macd_slow macd_signal in
  returned (run σ)
    = Some <$> indicator_table ta d sma_fast sma_slow rsi_period
                 macd_fast macd_slow macd_signal ∧
  (∀ σ2 df2, σ2 !! df2 = Some d →
     returned (compute_indicators ta df2 sma_fast sma_slow rsi_period
                 macd_fast macd_slow macd_signal σ2)
     = returned (run σ)) ∧
  (∀ df' σ', run σ = Ok (df', σ') →
     σ' !! df = Some d ∧ σ !! df' = None ∧
     ∀ l, l ≠ df' → σ' !! l = σ !! l).
Proof.
  intros Hdf run.
  assert (∀ σ1 df1, σ1 !! df1 = Some d →
    returned (compute_indicators ta df1 sma_fast sma_slow rsi_period
                macd_fast macd_slow macd_signal σ1)
    = Some <$> indicator_table ta d sma_fast sma_slow rsi_period
                 macd_fast macd_slow macd_signal) as Hret.
  { intros σ1 df1 H1. rewrite (compute_indicators_run _ _ _ _ _ _ _ _ _ H1).
    destruct indicator_table; simpl; [|done].
    by rewrite lookup_insert_eq. }
  split; [by apply Hret|]. split.
  { intros σ2 df2 H2. unfold run. by rewrite !Hret. }
  intros df' σ'. unfold run.
  rewrite (compute_indicators_run _ _ _ _ _ _ _ _ _ Hdf).
  destruct indicator_table as [t|]; simpl; [|done].
  intros [= <- <-]. pose proof (fresh_unused σ) as Hfresh.
  split; [|split; [done|]].
  - rewrite lookup_insert_ne; [done|]. intros Heq. congruence.
  - intros l Hl. by rewrite lookup_insert_ne.
Qed.

(** *** One row per bar *)

(** C2, as the code has it: there is no [InsufficientDataError]. For
    positive windows and indicators that keep the index, every frame
    with a [close] column, with or without rows, gets a table back: a
    new frame on the same index, with the six indicator columns, each
    column with one value per bar. *)
Theorem compute_indicators_returns_table σ df d close
    (sma_fast sma_slow rsi_period macd_fast macd_slow macd_signal : Z) :
  same_index ta →
  positive_windows
    [sma_fast; sma_slow; rsi_period; macd_fast; macd_slow; macd_signal] →
  σ !! df = Some d →
  columns d !! "close" = Some close →
  well_formed d →
  ∃ df' σ' t,
    compute_indicators ta df sma_fast sma_slow rsi_period
      macd_fast macd_slow macd_signal σ = Ok (df', σ') ∧
    σ' !! df' = Some t ∧
    index t = index d ∧
    well_formed t ∧
    ∀ key, key ∈ indicator_labels sma_fast sma_slow →
      ∃ s, columns t !! key = Some s ∧ length s = length (index d).
Proof.
  intros Hta _ Hdf Hclose Hwf.
  rewrite (compute_indicators_run _ _ _ _ _ _ _ _ _ Hdf).
  unfold indicator_table, getitem, table. rewrite Hclose. simpl.
  eexists _, _, _. split; [done|].
  split; [apply lookup_insert_eq|]. split; [done|].
  assert (length close = length (index d)) as Hlen by by eapply Hwf.
  assert (well_formed
    {| index := index d;
       columns := indicator_columns ta close (columns d) sma_fast sma_slow
                    rsi_period macd_fast macd_slow macd_signal |}) as Hwf'.
  { intros key s [[_ Hs]|Hs]%lookup_table_columns; simpl; [|by eapply Hwf].
    destruct Hta. rewrite !elem_of_cons, elem_of_nil in Hs.
    destruct Hs as [->|[->|[->|[->|[->|[->|[]]]]]]]; congruence. }
  split; [done|]. intros key Hkey.
  assert (is_Some (indicator_columns ta close (columns d) sma_fast sma_slow
            rsi_period macd_fast macd_slow macd_signal !! key)) as [s Hs].
  { unfold indicator_labels in Hkey.
    rewrite !elem_of_cons, elem_of_nil in Hkey.
    destruct Hkey as [->|[->|[->|[->|[->|[->|[]]]]]]];
      eauto using lookup_sma_fast, lookup_sma_slow, lookup_rsi,
        lookup_macd, lookup_macd_signal, lookup_macd_hist. }
  exists s. split; [done|]. by apply (Hwf' key).
Qed.

End Engine.

End FrameProps.

(** ** The modelled indicators: index, warm-up, range *)

Module TaSpecProps.
Import TaSpec.
Local Open Scope Q_scope.

(** *** Every indicator keeps the index *)

Lemma length_sma close window : length (sma close window) = length close.
Proof. unfold sma. by rewrite length_fmap, length_seq. Qed.

Lemma length_smooth_from alpha prev xs :
  length (smooth_from alpha prev xs) = length xs.
Proof.
  revert prev. induction xs as [|x xs IH]; intros prev; simpl; [done|].
  by rewrite IH.
Qed.

Lemma length_smooth_seeded alpha n xs :
  length (smooth_seeded alpha n xs) = length xs.
Proof.
  unfold smooth_seeded. case_decide as Hn.
  - rewrite length_app, length_replicate. simpl.
    rewrite length_smooth_from, length_drop. lia.
  - by rewrite length_replicate.
Qed.

Lemma leading_undefined_le xs : (leading_undefined xs ≤ length xs)%nat.
Proof. induction xs as [|[q|] xs IH]; simpl; lia. Qed.

Lemma length_smooth alpha n xs : length (smooth alpha n xs) = length xs.
Proof.
  unfold smooth.
  rewrite length_app, length_replicate, length_smooth_seeded, length_drop.
  pose proof (leading_undefined_le xs). lia.
Qed.

Lemma length_changes close : length (changes close) = (length close - 1)%nat.
Proof. unfold changes. rewrite length_zip_with, length_drop. lia. Qed.

Lemma length_rsi close window : length (rsi close window) = length close.
Proof.
  unfold rsi, wilder. destruct close as [|c close]; [done|].
  cbn [length]. rewrite length_zip_with, !length_smooth, !length_fmap.
  rewrite length_changes. simpl. lia.
Qed.

Lemma length_macd close s f g : length (macd close s f g) = length close.
Proof.
  unfold macd, ema. rewrite length_zip_with, !length_smooth. lia.
Qed.

Lemma length_macd_signal close s f g :
  length (macd_signal close s f g) = length close.
Proof. unfold macd_signal, ema. by rewrite length_smooth, length_macd. Qed.

Lemma length_macd_diff close s f g :
  length (macd_diff close s f g) = length close.
Proof.
  unfold macd_diff.
  rewrite length_zip_with, length_macd, length_macd_signal. lia.
Qed.

Lemma ta_same_index : Frame.same_index ta.
Proof.
  split; simpl; auto using length_sma, length_rsi, length_macd,
    length_macd_signal, length_macd_diff.
Qed.

(** *** Warm-up *)

Lemma defined_at_cons_S x xs i : defined_at (x :: xs) (S i) ↔ defined_at xs i.
Proof. done. Qed.

Lemma all_defined (xs : list cell) :
  (∀ i, (i < length xs)%nat → defined_at xs i) → ∃ qs, xs = Some <$> qs.
Proof.
  induction xs as [|x xs IH]; intros Hall; [by exists []|].
  destruct IH as [qs ->].
  { intros i Hi. apply (proj1 (defined_at_cons_S x xs i)), Hall. simpl. lia. }
  destruct (Hall 0%nat) as [q Hq]; [simpl; lia|].
  simpl in Hq. injection Hq as ->. by exists (q :: qs).
Qed.

Lemma warm_stays_defined xs : warm xs → stays_defined xs.
Proof.
  intros (k & qs & ->) i j [Hij Hj] [q Hq].
  rewrite length_app, length_replicate, length_fmap in Hj.
  assert (k ≤ i)%nat as Hk.
  { destruct (decide (k ≤ i)%nat) as [|Hlt]; [done|].
    rewrite lookup_app_l in Hq by (rewrite length_replicate; lia).
    apply lookup_replicate in Hq as [? _]. done. }
  unfold defined_at.
  rewrite lookup_app_r by (rewrite length_replicate; lia).
  rewrite length_replicate, list_lookup_fmap.
  destruct (lookup_lt_is_Some_2 qs (j - k)) as [q' ->]; [lia|].
  by exists q'.
Qed.

Lemma stays_defined_warm xs : stays_defined xs → warm xs.
Proof.
  induction xs as [|[q|] xs IH]; intros Hmon.
  - by exists 0%nat, [].
  - assert (∃ qs, Some q :: xs = Some <$> qs) as [qs Hqs].
    { apply all_defined. intros i Hi.
      apply (Hmon 0%nat i); [lia|by exists q]. }
    rewrite Hqs. by exists 0%nat, qs.
  - assert (warm xs) as (k & qs & Hxs); [|rewrite Hxs; by exists (S k), qs].
    apply IH. intros i j Hij Hi.
    apply (proj1 (defined_at_cons_S None xs j)).
    apply (Hmon (S i) (S j)); [simpl; lia|done].
Qed.

Lemma warm_prices qs : warm (prices qs).
Proof. by exists 0%nat, qs. Qed.

Lemma warm_undefined n : warm (replicate n None).
Proof. exists n, []. by rewrite app_nil_r. Qed.

Lemma warm_cons_None xs : warm xs → warm (None :: xs).
Proof. intros (k & qs & ->). by exists (S k), qs. Qed.

Lemma warm_app_undefined n xs : warm xs → warm (replicate n None ++ xs).
Proof.
  intros (k & qs & ->). exists (n + k)%nat, qs.
  by rewrite replicate_add, app_assoc.
Qed.

(** A value computed from two series is there where both have one. *)
Lemma defined_at_zip_with f xs ys i :
  defined_at (zip_with (lift2 f) xs ys) i ↔ defined_at xs i ∧ defined_at ys i.
Proof.
  unfold defined_at. rewrite lookup_zip_with.
  destruct (xs !! i) as [[x|]|], (ys !! i) as [[y|]|]; simpl;
    split; try (intros [q Hq]; done); try (intros [[? ?] [? ?]]; done).
  - intros _. split; eauto.
  - intros _. eauto.
Qed.

Lemma warm_zip_with f xs ys :
  length xs = length ys → warm xs → warm ys → warm (zip_with (lift2 f) xs ys).
Proof.
  intros Hlen Hxs%warm_stays_defined Hys%warm_stays_defined.
  apply stays_defined_warm. intros i j Hij.
  rewrite length_zip_with in Hij. rewrite !defined_at_zip_with.
  intros [Hx Hy]. split; [apply (Hxs i j)|apply (Hys i j)]; try done; lia.
Qed.

(** The mean of a window of values is a value. *)
Lemma total_defined qs : is_Some (total (Some <$> qs)).
Proof.
  unfold total. induction qs as [|q qs [t IH]]; csimpl; [done|].
  by rewrite IH.
Qed.

Lemma mean_defined qs : is_Some (mean (Some <$> qs)).
Proof.
  unfold mean. destruct (total_defined qs) as [t ->]. done.
Qed.

Lemma smooth_from_defined alpha p qs :
  ∃ zs, smooth_from alpha (Some p) (Some <$> qs) = Some <$> zs.
Proof.
  revert p. induction qs as [|q qs IH]; intros p; csimpl; [by exists []|].
  destruct (IH (alpha * q + (1 - alpha) * p)) as [zs ->].
  by eexists (_ :: zs).
Qed.

Lemma warm_smooth_seeded alpha n qs :
  warm (smooth_seeded alpha n (Some <$> qs)).
Proof.
  unfold smooth_seeded. case_decide; [|apply warm_undefined].
  apply warm_app_undefined.
  rewrite <- fmap_take, <- fmap_drop.
  destruct (mean_defined (take n qs)) as [seed ->].
  destruct (smooth_from_defined alpha seed (drop n qs)) as [zs ->].
  by exists 0%nat, (seed :: zs).
Qed.

Lemma leading_undefined_warm k qs :
  leading_undefined (replicate k None ++ (Some <$> qs)) = k.
Proof.
  induction k as [|k IH]; simpl; [by destruct qs|]. by rewrite IH.
Qed.

Lemma warm_smooth alpha n xs : warm xs → warm (smooth alpha n xs).
Proof.
  intros (k & qs & ->). unfold smooth. rewrite leading_undefined_warm.
  apply warm_app_undefined.
  rewrite drop_app_length' by (by rewrite length_replicate).
  apply warm_smooth_seeded.
Qed.

(** The simple moving average has a value from row [w - 1] on. *)
Lemma defined_at_sma qs w i :
  defined_at (sma (prices qs) w) i
  ↔ (i < length qs)%nat ∧ (0 < Z.to_nat w ≤ i + 1)%nat.
Proof.
  unfold defined_at, sma, prices.
  rewrite list_lookup_fmap, length_fmap.
  destruct (decide (i < length qs)%nat) as [Hi|Hi].
  - rewrite lookup_seq_lt by done. simpl. unfold sma_at.
    case_decide as Hw.
    + rewrite <- fmap_drop, <- fmap_take.
      destruct (mean_defined (take (Z.to_nat w) (drop (i + 1 - Z.to_nat w) qs)))
        as [q ->]. split; [done|by exists q].
    + split; [by intros [? ?]|]. intros [_ ?]. done.
  - rewrite lookup_seq_ge by lia. simpl.
    split; [by intros [? ?]|]. intros [? _]. done.
Qed.

Lemma warm_sma qs w : warm (sma (prices qs) w).
Proof.
  apply stays_defined_warm. intros i j Hij.
  rewrite length_sma in Hij. unfold prices in Hij.
  rewrite length_fmap in Hij. rewrite !defined_at_sma. lia.
Qed.

Lemma changes_prices qs :
  ∃ ds, changes (prices qs) = Some <$> ds.
Proof.
  unfold changes, prices. rewrite <- fmap_drop.
  generalize (drop 1 qs). induction qs as [|q qs IH]; intros [|r rs]; csimpl;
    try (by exists []).
  destruct (IH rs) as [ds ->]. by eexists (_ :: ds).
Qed.

Lemma warm_rsi qs w : warm (rsi (prices qs) w).
Proof.
  unfold rsi. destruct (prices qs) as [|c close] eqn:Hclose.
  { by exists 0%nat, []. }
  rewrite <- Hclose. destruct (changes_prices qs) as [ds ->].
  apply warm_cons_None, warm_zip_with.
  - unfold wilder. by rewrite !length_smooth, !length_fmap.
  - apply warm_smooth. unfold gain. rewrite <- list_fmap_compose.
    exists 0%nat, (Qmax 0 <$> ds). simpl. by rewrite <- list_fmap_compose.
  - apply warm_smooth. rewrite <- list_fmap_compose.
    exists 0%nat, ((λ d, Qmax 0 (- d)) <$> ds). simpl.
    by rewrite <- list_fmap_compose.
Qed.

Lemma warm_macd qs s f g : warm (macd (prices qs) s f g).
Proof.
  unfold macd, ema. apply warm_zip_with.
  - by rewrite !length_smooth.
  - apply warm_smooth, warm_prices.
  - apply warm_smooth, warm_prices.
Qed.

Lemma warm_macd_signal qs s f g : warm (macd_signal (prices qs) s f g).
Proof. unfold macd_signal, ema. apply warm_smooth, warm_macd. Qed.

Lemma warm_macd_diff qs s f g : warm (macd_diff (prices qs) s f g).
Proof.
  unfold macd_diff. apply warm_zip_with.
  - by rewrite length_macd, length_macd_signal.
  - apply warm_macd.
  - apply warm_macd_signal.
Qed.

(** *** The range of the RSI *)

Lemma Qdiv_nonneg (a b : Q) : 0 <= a → 0 <= b → 0 <= a / b.
Proof.
  intros Ha Hb. apply Qmult_le_0_compat; [done|].
  by apply Qinv_le_0_compat.
Qed.

Lemma nonneg_total xs : Forall nonneg xs → nonneg (total xs).
Proof.
  unfold total. induction 1 as [|x xs Hx _ IH]; simpl.
  - intros q [= <-]. lra.
  - intros q Hq. destruct x as [a|]; [|done]. simpl in Hq.
    destruct (foldr (lift2 Qplus) (Some 0) xs) as [t|]; [|done].
    injection Hq as <-.
    pose proof (Hx a eq_refl). pose proof (IH t eq_refl). lra.
Qed.

Lemma nonneg_mean xs : Forall nonneg xs → nonneg (mean xs).
Proof.
  intros Hxs%nonneg_total q. unfold mean.
  destruct (total xs) as [t|]; [|done]. intros [= <-].
  apply Qdiv_nonneg; [by apply Hxs|].
  change 0 with (inject_Z 0). rewrite <- Zle_Qle. lia.
Qed.

Lemma nonneg_smooth_from alpha prev xs :
  0 <= alpha <= 1 → nonneg prev → Forall nonneg xs →
  Forall nonneg (smooth_from alpha prev xs).
Proof.
  intros Halpha Hprev Hxs. revert prev Hprev.
  induction Hxs as [|x xs Hx _ IH]; intros prev Hprev; simpl; [done|].
  assert (nonneg (lift2 (λ x p, alpha * x + (1 - alpha) * p) x prev)) as Hy.
  { intros q. destruct x as [a|], prev as [p|]; try done. intros [= <-].
    pose proof (Hx a eq_refl). pose proof (Hprev p eq_refl). nra. }
  constructor; [done|]. by apply IH.
Qed.

Lemma nonneg_undefined n : Forall nonneg (replicate n None).
Proof. apply Forall_replicate. by intros q. Qed.

Lemma nonneg_smooth alpha n xs :
  0 <= alpha <= 1 → Forall nonneg xs → Forall nonneg (smooth alpha n xs).
Proof.
  intros Halpha Hxs. unfold smooth, smooth_seeded.
  apply Forall_app. split; [apply nonneg_undefined|].
  case_decide; [|apply nonneg_undefined].
  apply Forall_app. split; [apply nonneg_undefined|].
  assert (nonneg (mean (take n (drop (leading_undefined xs) xs)))) as Hseed
    by by apply nonneg_mean, Forall_take, Forall_drop.
  constructor; [done|].
  apply nonneg_smooth_from; [done..|]. by do 2 apply Forall_drop.
Qed.

(** Wilder's smoothing factor is between 0 and 1. *)
Lemma wilder_factor (w : nat) : 0 <= 1 / inject_Z (Z.of_nat w) <= 1.
Proof.
  destruct w as [|w]; [by compute|].
  assert (1 <= inject_Z (Z.of_nat (S w))) as Hw.
  { change 1 with (inject_Z 1). rewrite <- Zle_Qle. lia. }
  split; [apply Qdiv_nonneg; lra|].
  apply Qle_shift_div_r; lra.
Qed.

Lemma nonneg_wilder xs w : Forall nonneg xs → Forall nonneg (wilder xs w).
Proof. apply nonneg_smooth, wilder_factor. Qed.

Lemma nonneg_gain ds : Forall nonneg (gain <$> ds).
Proof.
  apply Forall_fmap, Forall_true. intros [d|] q; [|done].
  intros [= <-]. apply Q.le_max_l.
Qed.

Lemma nonneg_loss ds : Forall nonneg (loss <$> ds).
Proof.
  apply Forall_fmap, Forall_true. intros [d|] q; [|done].
  intros [= <-]. apply Q.le_max_l.
Qed.

(** From averages that are not negative the index is between 0 and 100. *)
Lemma percent_rsi_value avg_gain avg_loss :
  nonneg avg_gain → nonneg avg_loss → percent (rsi_value avg_gain avg_loss).
Proof.
  intros Hg Hl q. destruct avg_gain as [g|], avg_loss as [l|]; try done.
  intros [= <-]. pose proof (Hg g eq_refl). pose proof (Hl l eq_refl).
  destruct (Qeq_bool l 0) eqn:Hzero; [lra|].
  apply Qeq_bool_neq in Hzero.
  assert (0 <= g / l) by by apply Qdiv_nonneg.
  assert (0 <= 100 / (1 + g / l)) by (apply Qdiv_nonneg; lra).
  assert (100 / (1 + g / l) <= 100) by (apply Qle_shift_div_r; lra).
  lra.
Qed.

Lemma percent_rsi close window : Forall percent (rsi close window).
Proof.
  unfold rsi. destruct close as [|c close]; [done|].
  constructor; [by intros q|].
  apply Forall_lookup. intros i x. rewrite lookup_zip_with.
  intros Hx. apply bind_Some in Hx as (g & Hg & Hx).
  apply bind_Some in Hx as (l & Hl & [= <-]).
  apply percent_rsi_value.
  - eapply Forall_lookup_1; [apply nonneg_wilder, nonneg_gain|done].
  - eapply Forall_lookup_1; [apply nonneg_wilder, nonneg_loss|done].
Qed.

End TaSpecProps.

(** ** The indicator table *)

Module EngineProps.
Import Frame TaSpec.
Local Open Scope Q_scope.

Section Table.
Context (σ : store cell) (df : loc) (d : DataFrame cell) (close : list cell).
Context (sma_fast sma_slow rsi_period macd_fast macd_slow macd_signal : Z).

Lemma compute_indicators_table :
  σ !! df = Some d →
  columns d !! "close" = Some close →
  compute_indicators ta df sma_fast sma_slow rsi_period
    macd_fast macd_slow macd_signal σ
  = Ok (fresh (dom σ),
        <[fresh (dom σ) := table ta close d sma_fast sma_slow rsi_period
                             macd_fast macd_slow macd_signal]> σ).
Proof.
  intros Hdf Hclose.
  rewrite (FrameProps.compute_indicators_run _ _ _ _ _ _ _ _ _ _ Hdf).
  unfold indicator_table, getitem. by rewrite Hclose.
Qed.

(** C6: in every row of the table in which [macd] and [macd_signal] have
    a value, [macd_hist] is their difference. *)
Theorem macd_hist_is_macd_minus_signal :
  σ !! df = Some d →
  columns d !! "close" = Some close →
  ∃ df' σ' t,
    compute_indicators ta df sma_fast sma_slow rsi_period
      macd_fast macd_slow macd_signal σ = Ok (df', σ') ∧
    σ' !! df' = Some t ∧
    ∀ i m s,
      at_row t "macd" i = Some (Some m) →
      at_row t "macd_signal" i = Some (Some s) →
      at_row t "macd_hist" i = Some (Some (m - s)).
Proof.
  intros Hdf Hclose. eexists _, _, _.
  split; [by apply compute_indicators_table|].
  split; [apply lookup_insert_eq|].
  intros i m s. unfold at_row, table. simpl.
  rewrite FrameProps.lookup_macd, FrameProps.lookup_macd_signal,
    FrameProps.lookup_macd_hist. simpl.
  intros Hm Hs. unfold macd_diff.
  by rewrite lookup_zip_with, Hm, Hs.
Qed.

(** C7: for a positive RSI period, every value in the [rsi] column of
    the table is between 0 and 100. *)
Theorem rsi_within_0_100 :
  (0 < rsi_period)%Z →
  σ !! df = Some d →
  columns d !! "close" = Some close →
  ∃ df' σ' t,
    compute_indicators ta df sma_fast sma_slow rsi_period
      macd_fast macd_slow macd_signal σ = Ok (df', σ') ∧
    σ' !! df' = Some t ∧
    ∀ i v, at_row t "rsi" i = Some (Some v) → 0 <= v <= 100.
Proof.
  intros _ Hdf Hclose. eexists _, _, _.
  split; [by apply compute_indicators_table|].
  split; [apply lookup_insert_eq|].
  intros i v. unfold at_row, table. simpl.
  rewrite FrameProps.lookup_rsi. simpl. intros Hv.
  by eapply (Forall_lookup_1 _ _ _ _
               (TaSpecProps.percent_rsi close rsi_period) Hv).
Qed.

End Table.

(** C9: over a series of prices, every indicator column of the table
    warms up once: its undefined values are a leading prefix of the column,
    and a column that has a value in row [i] has one in every row after
    [i]. *)
Theorem indicators_warm_up_once
    (σ : store cell) (df : loc) (d : DataFrame cell) (prices_in : list Q)
    (sma_fast sma_slow rsi_period macd_fast macd_slow macd_signal : Z) :
  σ !! df = Some d →
  columns d !! "close" = Some (prices prices_in) →
  ∃ df' σ' t,
    compute_indicators ta df sma_fast sma_slow rsi_period
      macd_fast macd_slow macd_signal σ = Ok (df', σ') ∧
    σ' !! df' = Some t ∧
    ∀ key, key ∈ indicator_labels sma_fast sma_slow →
      ∃ column,
        columns t !! key = Some column ∧
        length column = length prices_in ∧
        (∃ k values, column = replicate k None ++ (Some <$> values)) ∧
        ∀ i j v, (i < j < length prices_in)%nat →
          at_row t key i = Some (Some v) →
          ∃ v', at_row t key j = Some (Some v').
Proof.
  intros Hdf Hclose.
  eexists _, _, _.
  split; [by apply compute_indicators_table|].
  split; [apply lookup_insert_eq|].
  intros key Hkey.
  assert (∃ column,
    columns (table ta (prices prices_in) d sma_fast sma_slow rsi_period
               macd_fast macd_slow macd_signal) !! key = Some column ∧
    length column = length prices_in ∧ warm column)
    as (column & Hcol & Hlen & Hwarm).
  { unfold indicator_labels in Hkey.
    rewrite !elem_of_cons, elem_of_nil in Hkey. unfold table. simpl.
    destruct Hkey as [->|[->|[->|[->|[->|[->|[]]]]]]]; eexists;
      (split; [first [apply FrameProps.lookup_sma_fast
                     |apply FrameProps.lookup_sma_slow
                     |apply FrameProps.lookup_rsi
                     |apply FrameProps.lookup_macd
                     |apply FrameProps.lookup_macd_signal
                     |apply FrameProps.lookup_macd_hist]|]);
      simpl; (split; [|auto using TaSpecProps.warm_sma, TaSpecProps.warm_rsi,
                        TaSpecProps.warm_macd, TaSpecProps.warm_macd_signal,
                        TaSpecProps.warm_macd_diff]);
      rewrite ?TaSpecProps.length_sma, ?TaSpecProps.length_rsi,
        ?TaSpecProps.length_macd, ?TaSpecProps.length_macd_signal,
        ?TaSpecProps.length_macd_diff; apply length_fmap. }
  exists column. split; [done|]. split; [done|]. split; [done|].
  intros i j v Hij. unfold at_row. rewrite Hcol. simpl. intros Hi.
  apply (TaSpecProps.warm_stays_defined column Hwarm i j); [lia|by exists v].
Qed.

(** *** The sample series: seven bars, windows 2 and 3 *)

Lemma macd_hist_is_macd_minus_signal_witness :
  ∃ df' σ' t,
    compute_indicators ta 1%positive 2 3 2 2 3 2 Examples.heap = Ok (df', σ') ∧
    σ' !! df' = Some t ∧
    ∀ i m s,
      at_row t "macd" i = Some (Some m) →
      at_row t "macd_signal" i = Some (Some s) →
      at_row t "macd_hist" i = Some (Some (m - s)).
Proof.
  apply (macd_hist_is_macd_minus_signal Examples.heap 1%positive
           Examples.bars (prices [1; 2; 3; 2; 5; 5; 4]) 2 3 2 2 3 2);
    vm_compute; reflexivity.
Defined.

Lemma rsi_within_0_100_witness :
  ∃ df' σ' t,
    compute_indicators ta 1%positive 2 3 2 2 3 2 Examples.heap = Ok (df', σ') ∧
    σ' !! df' = Some t ∧
    ∀ i v, at_row t "rsi" i = Some (Some v) → 0 <= v <= 100.
Proof.
  apply (rsi_within_0_100 Examples.heap 1%positive
           Examples.bars (prices [1; 2; 3; 2; 5; 5; 4]) 2 3 2 2 3 2);
    vm_compute; reflexivity.
Defined.

Lemma indicators_warm_up_once_witness :
  ∃ df' σ' t,
    compute_indicators ta 1%positive 2 3 2 2 3 2 Examples.heap = Ok (df', σ') ∧
    σ' !! df' = Some t ∧
    ∀ key, key ∈ indicator_labels 2 3 →
      ∃ column,
        columns t !! key = Some column ∧
        length column = length [1; 2; 3; 2; 5; 5; 4] ∧
        (∃ k values, column = replicate k None ++ (Some <$> values)) ∧
        ∀ i j v, (i < j < length [1; 2; 3; 2; 5; 5; 4])%nat →
          at_row t key i = Some (Some v) →
          ∃ v', at_row t key j = Some (Some v').
Proof.
  apply (indicators_warm_up_once Examples.heap 1%positive
           Examples.bars [1; 2; 3; 2; 5; 5; 4] 2 3 2 2 3 2);
    vm_compute; reflexivity.
Defined.

Lemma well_formed_bars : well_formed Examples.bars.
Proof.
  intros key s. unfold Examples.bars. simpl.
  intros [_ <-]%lookup_singleton_Some. reflexivity.
Defined.

Lemma compute_indicators_returns_table_witness :
  ∃ df' σ' t,
    compute_indicators ta 1%positive 2 3 2 2 3 2 Examples.heap = Ok (df', σ') ∧
    σ' !! df' = Some t ∧
    index t = index Examples.bars ∧
    well_formed t ∧
    ∀ key, key ∈ indicator_labels 2 3 →
      ∃ s, columns t !! key = Some s ∧ length s = length (index Examples.bars).
Proof.
  apply (FrameProps.compute_indicators_returns_table ta Examples.heap
           1%positive Examples.bars (prices [1; 2; 3; 2; 5; 5; 4])
           2 3 2 2 3 2).
  - apply TaSpecProps.ta_same_index.
  - unfold positive_windows. repeat constructor; lia.
  - vm_compute; reflexivity.
  - vm_compute; reflexivity.
  - apply well_formed_bars.
Defined.

Lemma compute_indicators_no_side_effects_witness :
  let run := compute_indicators ta 1%positive 2 3 2 2 3 2 in
  returned (run Examples.heap)
    = Some <$> indicator_table ta Examples.bars 2 3 2 2 3 2 ∧
  (∀ σ2 df2, σ2 !! df2 = Some Examples.bars →
     returned (compute_indicators ta df2 2 3 2 2 3 2 σ2)
     = returned (run Examples.heap)) ∧
  (∀ df' σ', run Examples.heap = Ok (df', σ') →
     σ' !! 1%positive = Some Examples.bars ∧ Examples.heap !! df' = None ∧
     ∀ l, l ≠ df' → σ' !! l = Examples.heap !! l).
Proof.
  apply (FrameProps.compute_indicators_no_side_effects ta Examples.heap
           1%positive Examples.bars 2 3 2 2 3 2).
  vm_compute; reflexivity.
Defined.

(** On the sample the call returns the frame at a new reference; the
    [rsi] column starts at row 2 and the histogram at row 3. *)
Example sample_table :
  (λ r, (r.1, (λ t, (at_row t "rsi" 1, at_row t "rsi" 2,
                     at_row t "macd_hist" 2,
                     from_option (λ _, true) false (mjoin (at_row t "macd_hist" 3))))
              <$> r.2 !! r.1))
    <$> compute_indicators ta 1%positive 2 3 2 2 3 2 Examples.heap
  = Ok (2%positive, Some (Some None, Some (Some 100), Some None, true)).
Proof. vm_compute. reflexivity. Qed.

(** *** The series with no bar *)

(** C2, as the specification words it, fails: on the series with no bar
    the call does not fail. It returns a frame that has the six indicator
    columns and no row. *)
Lemma compute_indicators_empty_series_returns :
  let run := compute_indicators ta 1%positive 20 50 14 12 26 9
               {[ 1%positive := Examples.no_bars ]} in
  (∀ e, run ≠ Raise e) ∧
  ∃ df' σ' t,
    run = Ok (df', σ') ∧ σ' !! df' = Some t ∧ index t = [] ∧
    ∀ key, key ∈ indicator_labels 20 50 → columns t !! key = Some [].
Proof.
  intros run.
  assert (run = Ok (2%positive,
                    <[2%positive := table ta [] Examples.no_bars
                                      20 50 14 12 26 9]>
                      {[ 1%positive := Examples.no_bars ]})) as Hrun
    by (vm_compute; reflexivity).
  rewrite Hrun. split; [done|]. eexists _, _, _.
  split; [done|]. split; [apply lookup_insert_eq|]. split; [done|].
  intros key. unfold indicator_labels. rewrite !elem_of_cons, elem_of_nil.
  intros [->|[->|[->|[->|[->|[->|[]]]]]]]; vm_compute; reflexivity.
Qed.

End EngineProps.

(** ** More on the classifier: errors, what is read, what the verdict says *)

Module SignalExtras.
Import Classifier Verdicts.

(** A comparison with NaN is false. *)
Lemma gt_nan_r (x : float) : gt x nan = false.
Proof. by destruct x. Qed.

Lemma lt_nan_r (x : float) : lt x nan = false.
Proof. by destruct x. Qed.

Lemma isnan_nan (x : float) : isnan x = true → x = nan.
Proof. by destruct x. Qed.

Lemma SFcompare_Gt_Lt (x y : float) :
  SFcompare x y = Some Gt → SFcompare y x = Some Lt.
Proof.
  destruct x as [sx|sx| |sx mx ex], y as [sy|sy| |sy my ey]; simpl;
    try done; try (by destruct sx); try (by destruct sy);
    try (by destruct sx, sy).
  destruct sx, sy; try done.
  - rewrite (Z.compare_antisym ex ey).
    destruct (ex ?= ey); simpl; try done.
    pose proof (Pos.compare_cont_antisym mx my Eq) as Hm. simpl in Hm.
    rewrite <- Hm. by destruct (Pos.compare_cont Eq mx my).
  - rewrite (Z.compare_antisym ex ey).
    destruct (ex ?= ey); simpl; try done.
    pose proof (Pos.compare_cont_antisym mx my Eq) as Hm. simpl in Hm.
    rewrite <- Hm. by destruct (Pos.compare_cont Eq mx my).
Qed.

Lemma SFcompare_defined (x y : float) :
  isnan x = false → isnan y = false → is_Some (SFcompare x y).
Proof. destruct x, y; simpl; try done; eauto. Qed.

(** Two floats that are not NaN are equal when neither is above the
    other. *)
Lemma not_gt_lt_eq (x y : float) :
  isnan x = false → isnan y = false →
  gt x y = false → lt x y = false → eq x y = true.
Proof.
  intros Hx Hy. unfold gt, lt, eq, SFltb, SFeqb.
  destruct (SFcompare_defined x y Hx Hy) as [[] Hc]; rewrite Hc; try done.
  by rewrite (SFcompare_Gt_Lt _ _ Hc).
Qed.

(** X1: [generate_signal] raises [KeyError] exactly when the row lacks one
    of the labels it reads, and the key of the error is the first one
    missing in the order they are read: the two averages, [rsi], [macd],
    [macd_signal] and, last, [close]. With all six it returns. *)
Theorem generate_signal_raises_first_missing
    (latest : gmap string float) sma_fast sma_slow rsi_upper rsi_lower :
  match first_missing latest (labels_read sma_fast sma_slow) with
  | Some key =>
    generate_signal latest sma_fast sma_slow rsi_upper rsi_lower
    = Raise (KeyError key)
  | None =>
    ∃ v, generate_signal latest sma_fast sma_slow rsi_upper rsi_lower = Ok v
  end.
Proof.
  unfold first_missing, labels_read, generate_signal, generate_signal_votes,
    getitem. simpl.
  destruct (latest !! sma_label sma_fast) as [f|] eqn:Hf; simpl; [|done].
  destruct (latest !! sma_label sma_slow) as [s|] eqn:Hs; simpl; [|done].
  destruct (sma_rule f s).
  destruct (latest !! "rsi") as [r|] eqn:Hr; simpl; [|done].
  destruct (rsi_rule r rsi_upper rsi_lower).
  destruct (latest !! "macd") as [m|] eqn:Hm; simpl; [|done].
  destruct (latest !! "macd_signal") as [g|] eqn:Hg; simpl; [|done].
  destruct (macd_rule m g).
  destruct (latest !! "close") as [c|] eqn:Hc; simpl; [|done].
  eauto.
Qed.

(** X2: [generate_signal] reads the five indicator fields and [close] and
    nothing else, and [close] only as the price it reports: on two rows
    that agree on the five indicator fields it gives the same overall
    signal, the same biases and the same raw values. *)
Theorem generate_signal_reads_indicators_only
    (latest latest' : gmap string float)
    sma_fast sma_slow rsi_upper rsi_lower v c' :
  (∀ key, key ∈ [sma_label sma_fast; sma_label sma_slow;
                 "rsi"; "macd"; "macd_signal"] →
          latest' !! key = latest !! key) →
  latest' !! "close" = Some c' →
  generate_signal latest sma_fast sma_slow rsi_upper rsi_lower = Ok v →
  generate_signal latest' sma_fast sma_slow rsi_upper rsi_lower
  = Ok {| overall_signal := overall_signal v;
          details := {| sma_bias := sma_bias (details v);
                        rsi_bias := rsi_bias (details v);
                        macd_bias := macd_bias (details v);
                        price := c';
                        rsi := rsi (details v);
                        macd := macd (details v);
                        macd_signal := macd_signal (details v) |} |}.
Proof.
  intros Hsame Hc' Hv.
  destruct (SignalProps.generate_signal_Ok_reads _ _ _ _ _ _ Hv)
    as (f & s & r & m & g & c & [Hf Hs Hr Hm Hg Hc]).
  rewrite (SignalProps.generate_signal_reads _ _ _ rsi_upper rsi_lower
             f s r m g c) in Hv by done.
  injection Hv as <-. simpl.
  apply SignalProps.generate_signal_reads.
  split; [..|done]; (rewrite Hsame; [done|set_solver]).
Qed.

Lemma generate_signal_reads_indicators_only_witness :
  generate_signal Examples.tied_row 20 50 (of_Z 70) (of_Z 30)
  = Ok {| overall_signal := "sell";
          details := {| sma_bias := "neutral"; rsi_bias := "overbought";
                        macd_bias := "neutral"; price := of_Z 100;
                        rsi := of_Z 80; macd := of_Z 1;
                        macd_signal := of_Z 1 |} |}.
Proof.
  apply (generate_signal_reads_indicators_only
           (Examples.row (of_Z 2) (of_Z 2) (of_Z 80) (of_Z 1) (of_Z 1) (of_Z 7))
           Examples.tied_row 20 50 (of_Z 70) (of_Z 30)
           {| overall_signal := "sell";
              details := {| sma_bias := "neutral"; rsi_bias := "overbought";
                            macd_bias := "neutral"; price := of_Z 7;
                            rsi := of_Z 80; macd := of_Z 1;
                            macd_signal := of_Z 1 |} |}
           (of_Z 100)).
  - intros key Hkey. rewrite !elem_of_cons, elem_of_nil in Hkey.
    destruct Hkey as [->|[->|[->|[->|[->|[]]]]]]; vm_compute; reflexivity.
  - vm_compute; reflexivity.
  - vm_compute; reflexivity.
Defined.

Lemma sma_rule_bias f s :
  (sma_rule f s).1 ∈ ["bullish"; "bearish"; "neutral"] ∧
  (sma_rule f s).2 = votes_of_bias (sma_rule f s).1.
Proof. unfold sma_rule. repeat case_match; simpl; split; set_solver. Qed.

Lemma rsi_rule_bias r up lo :
  (rsi_rule r up lo).1 ∈ ["overbought"; "oversold"; "neutral"] ∧
  (rsi_rule r up lo).2 = votes_of_bias (rsi_rule r up lo).1.
Proof. unfold rsi_rule. repeat case_match; simpl; split; set_solver. Qed.

Lemma macd_rule_bias m g :
  (macd_rule m g).1 ∈ ["bullish"; "bearish"; "neutral"] ∧
  (macd_rule m g).2 = votes_of_bias (macd_rule m g).1.
Proof. unfold macd_rule. repeat case_match; simpl; split; set_solver. Qed.

(** X3: the verdict is consistent: each bias is one of its three labels,
    and the overall signal is the one the three bias labels give when
    "bullish" and "oversold" count as a vote of 1, "bearish" and
    "overbought" as a vote of -1 and "neutral" as no vote. *)
Theorem overall_signal_follows_biases
    (latest : gmap string float) sma_fast sma_slow rsi_upper rsi_lower v :
  generate_signal latest sma_fast sma_slow rsi_upper rsi_lower = Ok v →
  sma_bias (details v) ∈ ["bullish"; "bearish"; "neutral"] ∧
  rsi_bias (details v) ∈ ["overbought"; "oversold"; "neutral"] ∧
  macd_bias (details v) ∈ ["bullish"; "bearish"; "neutral"] ∧
  overall_signal v =
    aggregate (votes_of_bias (sma_bias (details v))
               ++ votes_of_bias (rsi_bias (details v))
               ++ votes_of_bias (macd_bias (details v))).
Proof.
  intros Hv.
  destruct (SignalProps.generate_signal_Ok_reads _ _ _ _ _ _ Hv)
    as (f & s & r & m & g & c & H).
  rewrite (SignalProps.generate_signal_reads _ _ _ rsi_upper rsi_lower
             f s r m g c H) in Hv.
  injection Hv as <-. simpl. unfold cast.
  destruct (sma_rule_bias f s) as [? <-],
           (rsi_rule_bias r rsi_upper rsi_lower) as [? <-],
           (macd_rule_bias m g) as [? <-].
  done.
Qed.

Lemma overall_signal_follows_biases_witness :
  "neutral" ∈ ["bullish"; "bearish"; "neutral"] ∧
  "overbought" ∈ ["overbought"; "oversold"; "neutral"] ∧
  "neutral" ∈ ["bullish"; "bearish"; "neutral"] ∧
  "sell" = aggregate (votes_of_bias "neutral" ++ votes_of_bias "overbought"
                      ++ votes_of_bias "neutral").
Proof.
  apply (overall_signal_follows_biases Examples.tied_row 20 50
           (of_Z 70) (of_Z 30)
           {| overall_signal := "sell";
              details := {| sma_bias := "neutral"; rsi_bias := "overbought";
                            macd_bias := "neutral"; price := of_Z 100;
                            rsi := of_Z 80; macd := of_Z 1;
                            macd_signal := of_Z 1 |} |}).
  vm_compute; reflexivity.
Defined.

Example first_missing_macd :
  first_missing (delete "macd" Examples.bullish_row) (labels_read 20 50)
  = Some "macd" ∧
  generate_signal (delete "macd" Examples.bullish_row) 20 50
    (of_Z 70) (of_Z 30) = Raise (KeyError "macd").
Proof. split; vm_compute; reflexivity. Qed.

Lemma aggregate_by_votes (votes : list Z) :
  votes ∈ [[]; [1]; [-1]; [1; 1]; [1; -1]; [-1; 1]; [-1; -1];
           [1; 1; 1]; [1; 1; -1]; [1; -1; 1]; [1; -1; -1];
           [-1; 1; 1]; [-1; 1; -1]; [-1; -1; 1]; [-1; -1; -1]] →
  (aggregate votes = "strong_buy" ↔ votes = [1; 1] ∨ votes = [1; 1; 1]) ∧
  (aggregate votes = "strong_sell" ↔ votes = [-1; -1] ∨ votes = [-1; -1; -1]) ∧
  (aggregate votes = "neutral" ↔
     votes = [] ∨ votes = [1; -1] ∨ votes = [-1; 1]).
Proof.
  rewrite !elem_of_cons, elem_of_nil. intros H.
  repeat (destruct H as [->|H];
    [vm_compute; repeat split; intros; try done;
     try (destruct_or!; done); eauto|]).
  done.
Qed.

Lemma cast_cases f s r up lo m g :
  cast f s r up lo m g ∈
    [[]; [1]; [-1]; [1; 1]; [1; -1]; [-1; 1]; [-1; -1];
     [1; 1; 1]; [1; 1; -1]; [1; -1; 1]; [1; -1; -1];
     [-1; 1; 1]; [-1; 1; -1]; [-1; -1; 1]; [-1; -1; -1]].
Proof.
  unfold cast.
  destruct (SignalProps.sma_rule_votes f s) as [->|[->| ->]],
           (SignalProps.rsi_rule_votes r up lo) as [->|[->| ->]],
           (SignalProps.macd_rule_votes m g) as [->|[->| ->]];
    simpl; set_solver.
Qed.

(** X4: at most three votes are cast. The overall signal is "strong_buy"
    exactly when two or three votes were cast and all are 1, "strong_sell"
    exactly when two or three were cast and all are -1, and "neutral"
    exactly when none was cast or two that cancel: one vote alone and
    three votes never give "neutral", and a strong signal never comes with
    a vote against it. *)
Theorem overall_signal_by_votes
    (latest : gmap string float) sma_fast sma_slow rsi_upper rsi_lower
    v votes :
  generate_signal latest sma_fast sma_slow rsi_upper rsi_lower = Ok v →
  signal_votes latest sma_fast sma_slow rsi_upper rsi_lower = Ok votes →
  (length votes ≤ 3)%nat ∧
  (overall_signal v = "strong_buy" ↔ votes = [1; 1] ∨ votes = [1; 1; 1]) ∧
  (overall_signal v = "strong_sell" ↔
     votes = [-1; -1] ∨ votes = [-1; -1; -1]) ∧
  (overall_signal v = "neutral" ↔
     votes = [] ∨ votes = [1; -1] ∨ votes = [-1; 1]).
Proof.
  intros Hv Hvotes.
  destruct (SignalProps.generate_signal_Ok_reads _ _ _ _ _ _ Hv)
    as (f & s & r & m & g & c & H).
  rewrite (SignalProps.generate_signal_reads _ _ _ rsi_upper rsi_lower
             f s r m g c H) in Hv.
  rewrite (SignalProps.signal_votes_reads _ _ _ rsi_upper rsi_lower
             f s r m g c H) in Hvotes.
  injection Hv as <-. injection Hvotes as <-. simpl.
  pose proof (cast_cases f s r rsi_upper rsi_lower m g) as Hcases.
  split; [|by apply aggregate_by_votes].
  rewrite !elem_of_cons, elem_of_nil in Hcases.
  repeat (destruct Hcases as [->|Hcases]; [simpl; lia|]). done.
Qed.

Lemma overall_signal_by_votes_witness :
  (length [1; 1] ≤ 3)%nat ∧
  ("strong_buy" = "strong_buy" ↔ [1; 1] = [1; 1] ∨ [1; 1] = [1; 1; 1]) ∧
  ("strong_buy" = "strong_sell" ↔
     [1; 1] = [-1; -1] ∨ [1; 1] = [-1; -1; -1]) ∧
  ("strong_buy" = "neutral" ↔
     [1; 1] = [] ∨ [1; 1] = [1; -1] ∨ [1; 1] = [-1; 1]).
Proof.
  apply (overall_signal_by_votes Examples.bullish_row 20 50
           (of_Z 70) (of_Z 30)
           {| overall_signal := "strong_buy";
              details := {| sma_bias := "bullish"; rsi_bias := "neutral";
                            macd_bias := "bullish"; price := of_Z 100;
                            rsi := of_Z 50; macd := of_Z 1;
                            macd_signal := of_Z 0 |} |}
           [1; 1]); vm_compute; reflexivity.
Defined.

(** X5: with both thresholds NaN the RSI never votes: whatever the row,
    the RSI bias is "neutral" and the votes are those of the averages and
    of the MACD. *)
Theorem rsi_never_votes_on_nan_thresholds
    (latest : gmap string float) sma_fast sma_slow rsi_upper rsi_lower
    f s r m g c :
  reads latest sma_fast sma_slow f s r m g c →
  isnan rsi_upper = true → isnan rsi_lower = true →
  ∃ v,
    generate_signal latest sma_fast sma_slow rsi_upper rsi_lower = Ok v ∧
    rsi_bias (details v) = "neutral" ∧
    signal_votes latest sma_fast sma_slow rsi_upper rsi_lower
    = Ok ((sma_rule f s).2 ++ (macd_rule m g).2).
Proof.
  intros H ->%isnan_nan ->%isnan_nan.
  rewrite (SignalProps.generate_signal_reads _ _ _ nan nan f s r m g c H).
  rewrite (SignalProps.signal_votes_reads _ _ _ nan nan f s r m g c H).
  eexists. split; [done|]. unfold cast, rsi_rule.
  rewrite gt_nan_r, lt_nan_r. by destruct (isnan r).
Qed.

Lemma rsi_never_votes_on_nan_thresholds_witness :
  ∃ v,
    generate_signal Examples.tied_row 20 50 nan nan = Ok v ∧
    rsi_bias (details v) = "neutral" ∧
    signal_votes Examples.tied_row 20 50 nan nan
    = Ok ((sma_rule (of_Z 2) (of_Z 2)).2 ++ (macd_rule (of_Z 1) (of_Z 1)).2).
Proof.
  apply (rsi_never_votes_on_nan_thresholds Examples.tied_row 20 50 nan nan
           (of_Z 2) (of_Z 2) (of_Z 80) (of_Z 1) (of_Z 1) (of_Z 100));
    [split|..]; vm_compute; reflexivity.
Defined.

Lemma sma_rule_neutral f s :
  isnan f = false → isnan s = false →
  ((sma_rule f s).1 = "neutral" ↔ eq f s = true) ∧
  ((sma_rule f s).1 = "bullish" ↔ gt f s = true) ∧
  ((sma_rule f s).1 = "bearish" ↔ gt f s = false ∧ lt f s = true).
Proof.
  intros Hf Hs. unfold sma_rule. rewrite Hf, Hs. simpl.
  destruct (gt f s) eqn:Hgt; simpl.
  { repeat split; try done; try (by intros []).
    intros (_ & _ & Hgt' & _)%PyFloatFacts.eq_not_gt_lt. congruence. }
  destruct (lt f s) eqn:Hlt; simpl.
  { repeat split; try done.
    intros (_ & _ & _ & Hlt')%PyFloatFacts.eq_not_gt_lt. congruence. }
  repeat split; try done; try (by intros []).
  intros _. by apply not_gt_lt_eq.
Qed.

(** X6: when both averages are defined the SMA bias is "neutral" exactly
    when they compare equal, "bullish" exactly when the fast one is above
    the slow one and "bearish" otherwise; the same holds of the MACD
    against its signal line. *)
Theorem bias_of_defined_values
    (latest : gmap string float) sma_fast sma_slow rsi_upper rsi_lower
    f s r m g c :
  reads latest sma_fast sma_slow f s r m g c →
  ∃ v,
    generate_signal latest sma_fast sma_slow rsi_upper rsi_lower = Ok v ∧
    (isnan f = false → isnan s = false →
       (sma_bias (details v) = "neutral" ↔ eq f s = true) ∧
       (sma_bias (details v) = "bullish" ↔ gt f s = true) ∧
       (sma_bias (details v) = "bearish" ↔ gt f s = false ∧ lt f s = true)) ∧
    (isnan m = false → isnan g = false →
       (macd_bias (details v) = "neutral" ↔ eq m g = true) ∧
       (macd_bias (details v) = "bullish" ↔ gt m g = true) ∧
       (macd_bias (details v) = "bearish" ↔ gt m g = false ∧ lt m g = true)).
Proof.
  intros H.
  rewrite (SignalProps.generate_signal_reads _ _ _ rsi_upper rsi_lower
             f s r m g c H).
  eexists. split; [done|]. simpl. split.
  - apply sma_rule_neutral.
  - apply (sma_rule_neutral m g).
Qed.

Lemma bias_of_defined_values_witness :
  ∃ v,
    generate_signal Examples.tied_row 20 50 (of_Z 70) (of_Z 30) = Ok v ∧
    (isnan (of_Z 2) = false → isnan (of_Z 2) = false →
       (sma_bias (details v) = "neutral" ↔ eq (of_Z 2) (of_Z 2) = true) ∧
       (sma_bias (details v) = "bullish" ↔ gt (of_Z 2) (of_Z 2) = true) ∧
       (sma_bias (details v) = "bearish" ↔
          gt (of_Z 2) (of_Z 2) = false ∧ lt (of_Z 2) (of_Z 2) = true)) ∧
    (isnan (of_Z 1) = false → isnan (of_Z 1) = false →
       (macd_bias (details v) = "neutral" ↔ eq (of_Z 1) (of_Z 1) = true) ∧
       (macd_bias (details v) = "bullish" ↔ gt (of_Z 1) (of_Z 1) = true) ∧
       (macd_bias (details v) = "bearish" ↔
          gt (of_Z 1) (of_Z 1) = false ∧ lt (of_Z 1) (of_Z 1) = true)).
Proof.
  apply (bias_of_defined_values Examples.tied_row 20 50 (of_Z 70) (of_Z 30)
           (of_Z 2) (of_Z 2) (of_Z 80) (of_Z 1) (of_Z 1) (of_Z 100)).
  split; vm_compute; reflexivity.
Defined.

End SignalExtras.

(** ** More on the engine: errors, the columns kept and written, a second call *)

Module EngineExtras.
Import Frame.

Section Engine.
Context {cell : Type} (ta : TaLib cell).
Context (σ : store cell) (df : loc) (d : DataFrame cell).
Context (sma_fast sma_slow rsi_period macd_fast macd_slow macd_signal : Z).


(** X8: the table has the index of the input and every column of the
    input that is not under one of the six indicator labels, unchanged:
    the five OHLCV columns are among them. *)
Theorem compute_indicators_keeps_input_columns close :
  σ !! df = Some d →
  columns d !! "close" = Some close →
  ∃ df' σ' t,
    compute_indicators ta df sma_fast sma_slow rsi_period
      macd_fast macd_slow macd_signal σ = Ok (df', σ') ∧
    σ' !! df' = Some t ∧
    index t = index d ∧
    (∀ key, key ∉ indicator_labels sma_fast sma_slow →
            columns t !! key = columns d !! key) ∧
    (∀ key, key ∈ ["open"; "high"; "low"; "close"; "volume"] →
            columns t !! key = columns d !! key).
Proof.
  intros Hdf Hclose.
  rewrite (FrameProps.compute_indicators_run _ _ _ _ _ _ _ _ _ _ Hdf).
  unfold indicator_table, getitem. rewrite Hclose. simpl.
  eexists _, _, _. split; [done|]. split; [apply lookup_insert_eq|].
  split; [done|].
  assert (∀ key, key ∉ indicator_labels sma_fast sma_slow →
    indicator_columns ta close (columns d) sma_fast sma_slow rsi_period
      macd_fast macd_slow macd_signal !! key = columns d !! key) as Hkept.
  { intros key Hkey. unfold indicator_labels in Hkey.
    rewrite !not_elem_of_cons in Hkey.
    destruct Hkey as (? & ? & ? & ? & ? & ? & _).
    unfold indicator_columns. by rewrite !lookup_insert_ne. }
  split; [done|]. intros key Hkey. apply Hkept.
  unfold indicator_labels. rewrite !not_elem_of_cons.
  rewrite !elem_of_cons, elem_of_nil in Hkey.
  repeat split; try apply not_elem_of_nil;
    try (apply FrameProps.sma_label_not_fixed;
         rewrite !elem_of_cons; tauto);
    destruct Hkey as [->|[->|[->|[->|[->|[]]]]]]; done.
Qed.

(** X9: whatever the input has under these labels, in the table the
    column [sma_<w>] is the moving average of window [w], for the fast
    and for the slow window (one column when they are equal), [rsi] is
    the RSI of [rsi_period], and [macd], [macd_signal] and [macd_hist]
    are the three series of the MACD made with [macd_slow], [macd_fast]
    and [macd_signal] in this order. *)
Theorem compute_indicators_column_contents close :
  σ !! df = Some d →
  columns d !! "close" = Some close →
  ∃ df' σ' t,
    compute_indicators ta df sma_fast sma_slow rsi_period
      macd_fast macd_slow macd_signal σ = Ok (df', σ') ∧
    σ' !! df' = Some t ∧
    columns t !! Classifier.sma_label sma_fast
      = Some (SMAIndicator_sma_indicator ta close sma_fast) ∧
    columns t !! Classifier.sma_label sma_slow
      = Some (SMAIndicator_sma_indicator ta close sma_slow) ∧
    columns t !! "rsi" = Some (RSIIndicator_rsi ta close rsi_period) ∧
    columns t !! "macd"
      = Some (MACD_macd ta close macd_slow macd_fast macd_signal) ∧
    columns t !! "macd_signal"
      = Some (MACD_macd_signal ta close macd_slow macd_fast macd_signal) ∧
    columns t !! "macd_hist"
      = Some (MACD_macd_diff ta close macd_slow macd_fast macd_signal).
Proof.
  intros Hdf Hclose.
  rewrite (FrameProps.compute_indicators_run _ _ _ _ _ _ _ _ _ _ Hdf).
  unfold indicator_table, getitem. rewrite Hclose. simpl.
  eexists _, _, _. split; [done|]. split; [apply lookup_insert_eq|].
  simpl.
  eauto 10 using FrameProps.lookup_sma_fast, FrameProps.lookup_sma_slow,
    FrameProps.lookup_rsi, FrameProps.lookup_macd,
    FrameProps.lookup_macd_signal, FrameProps.lookup_macd_hist.
Qed.

Lemma indicator_columns_again close cols :
  cols !! "close" = Some close →
  let cols' := indicator_columns ta close cols sma_fast sma_slow rsi_period
                 macd_fast macd_slow macd_signal in
  cols' !! "close" = Some close ∧
  indicator_columns ta close cols' sma_fast sma_slow rsi_period
    macd_fast macd_slow macd_signal = cols'.
Proof.
  intros Hclose cols'. split.
  - unfold cols', indicator_columns.
    rewrite !lookup_insert_ne; first done.
    all: try done.
    all: apply not_eq_sym, FrameProps.sma_label_not_fixed;
      rewrite !elem_of_cons; tauto.
  - unfold cols', indicator_columns. apply map_eq. intros key.
    rewrite !lookup_insert. repeat case_decide; congruence.
Qed.

(** X10: a second call on the frame the first one returned, with the
    same windows, returns one more new frame with the same contents. *)
Theorem compute_indicators_twice_same_table close :
  σ !! df = Some d →
  columns d !! "close" = Some close →
  ∃ df1 σ1 df2 σ2 t,
    compute_indicators ta df sma_fast sma_slow rsi_period
      macd_fast macd_slow macd_signal σ = Ok (df1, σ1) ∧
    compute_indicators ta df1 sma_fast sma_slow rsi_period
      macd_fast macd_slow macd_signal σ1 = Ok (df2, σ2) ∧
    df2 ≠ df1 ∧ df2 ≠ df ∧ df1 ≠ df ∧
    σ2 !! df = Some d ∧ σ2 !! df1 = Some t ∧ σ2 !! df2 = Some t.
Proof.
  intros Hdf Hclose.
  set (t := table ta close d sma_fast sma_slow rsi_period
              macd_fast macd_slow macd_signal).
  set (df1 := fresh (dom σ)). set (σ1 := <[df1 := t]> σ).
  set (df2 := fresh (dom σ1)).
  assert (compute_indicators ta df sma_fast sma_slow rsi_period
            macd_fast macd_slow macd_signal σ = Ok (df1, σ1)) as Hrun1.
  { rewrite (FrameProps.compute_indicators_run _ _ _ _ _ _ _ _ _ _ Hdf).
    unfold indicator_table, getitem. by rewrite Hclose. }
  assert (σ1 !! df1 = Some t) as Hdf1 by apply lookup_insert_eq.
  assert (compute_indicators ta df1 sma_fast sma_slow rsi_period
            macd_fast macd_slow macd_signal σ1
          = Ok (df2, <[df2 := t]> σ1)) as Hrun2.
  { rewrite (FrameProps.compute_indicators_run _ _ _ _ _ _ _ _ _ _ Hdf1).
    destruct (indicator_columns_again close (columns d) Hclose)
      as [Hclose' Hagain].
    unfold indicator_table, getitem. unfold t at 1. simpl.
    rewrite Hclose'. simpl. unfold table, t. simpl. by rewrite Hagain. }
  pose proof (FrameProps.fresh_unused σ) as Hf1. fold df1 in Hf1.
  pose proof (FrameProps.fresh_unused σ1) as Hf2. fold df2 in Hf2.
  assert (df1 ≠ df) by congruence.
  assert (df2 ≠ df1) by congruence.
  assert (df2 ≠ df).
  { intros Heq. rewrite Heq in Hf2. unfold σ1 in Hf2.
    rewrite lookup_insert_ne in Hf2 by done. congruence. }
  exists df1, σ1, df2, (<[df2 := t]> σ1), t.
  repeat split; try done.
  - rewrite lookup_insert_ne by done. unfold σ1.
    by rewrite lookup_insert_ne.
  - by rewrite lookup_insert_ne.
  - apply lookup_insert_eq.
Qed.

End Engine.


(** A frame without prices: the call raises. *)
Example compute_indicators_no_close :
  compute_indicators TaSpec.ta 1%positive 2 3 2 2 3 2
    {[ 1%positive := {| index := [0]; columns := {[ "open" := [Some 1%Q] ]} |} ]}
  = Raise (KeyError "close").
Proof. vm_compute. reflexivity. Qed.

Lemma compute_indicators_keeps_input_columns_witness :
  ∃ df' σ' t,
    compute_indicators TaSpec.ta 1%positive 2 3 2 2 3 2 Examples.heap
    = Ok (df', σ') ∧ σ' !! df' = Some t ∧
    index t = index Examples.bars ∧
    (∀ key, key ∉ indicator_labels 2 3 →
            columns t !! key = columns Examples.bars !! key) ∧
    (∀ key, key ∈ ["open"; "high"; "low"; "close"; "volume"] →
            columns t !! key = columns Examples.bars !! key).
Proof.
  apply (compute_indicators_keeps_input_columns TaSpec.ta Examples.heap
           1%positive Examples.bars 2 3 2 2 3 2
           (TaSpec.prices [1; 2; 3; 2; 5; 5; 4]%Q));
    vm_compute; reflexivity.
Defined.

Lemma compute_indicators_column_contents_witness :
  let close := TaSpec.prices [1; 2; 3; 2; 5; 5; 4]%Q in
  ∃ df' σ' t,
    compute_indicators TaSpec.ta 1%positive 2 3 2 2 3 2 Examples.heap
    = Ok (df', σ') ∧ σ' !! df' = Some t ∧
    columns t !! Classifier.sma_label 2 = Some (TaSpec.sma close 2) ∧
    columns t !! Classifier.sma_label 3 = Some (TaSpec.sma close 3) ∧
    columns t !! "rsi" = Some (TaSpec.rsi close 2) ∧
    columns t !! "macd" = Some (TaSpec.macd close 3 2 2) ∧
    columns t !! "macd_signal" = Some (TaSpec.macd_signal close 3 2 2) ∧
    columns t !! "macd_hist" = Some (TaSpec.macd_diff close 3 2 2).
Proof.
  apply (compute_indicators_column_contents TaSpec.ta Examples.heap
           1%positive Examples.bars 2 3 2 2 3 2
           (TaSpec.prices [1; 2; 3; 2; 5; 5; 4]%Q));
    vm_compute; reflexivity.
Defined.

Lemma compute_indicators_twice_same_table_witness :
  ∃ df1 σ1 df2 σ2 t,
    compute_indicators TaSpec.ta 1%positive 2 3 2 2 3 2 Examples.heap
    = Ok (df1, σ1) ∧
    compute_indicators TaSpec.ta df1 2 3 2 2 3 2 σ1 = Ok (df2, σ2) ∧
    df2 ≠ df1 ∧ df2 ≠ 1%positive ∧ df1 ≠ 1%positive ∧
    σ2 !! 1%positive = Some Examples.bars ∧
    σ2 !! df1 = Some t ∧ σ2 !! df2 = Some t.
Proof.
  apply (compute_indicators_twice_same_table TaSpec.ta Examples.heap
           1%positive Examples.bars 2 3 2 2 3 2
           (TaSpec.prices [1; 2; 3; 2; 5; 5; 4]%Q));
    vm_compute; reflexivity.
Defined.

End EngineExtras.

(** ** The pipeline of [main]: dropping rows, the latest row, the verdict *)

Module PipelineProps.
Import Frame Classifier Pipeline.

(** *** Selecting rows *)

Lemma elem_of_select {A} (mask : list bool) (xs : list A) x :
  x ∈ select mask xs → ∃ i, mask !! i = Some true ∧ xs !! i = Some x.
Proof.
  revert xs. induction mask as [|b mask IH]; intros [|y xs]; simpl;
    try (by intros ?%elem_of_nil).
  destruct b.
  - intros [->|Hx]%elem_of_cons; [by exists 0%nat|].
    destruct (IH _ Hx) as (i & ? & ?). by exists (S i).
  - intros Hx. destruct (IH _ Hx) as (i & ? & ?). by exists (S i).
Qed.

Lemma length_select_same {A B} (mask : list bool) (xs : list A) (ys : list B) :
  length xs = length ys → length (select mask xs) = length (select mask ys).
Proof.
  revert xs ys. induction mask as [|b mask IH]; intros [|x xs] [|y ys];
    simpl; try done.
  intros [= Hlen]. destruct b; simpl; by rewrite (IH xs ys).
Qed.

Lemma select_all {A} (xs : list A) :
  select (replicate (length xs) true) xs = xs.
Proof. induction xs as [|x xs IH]; simpl; [done|]. by rewrite IH. Qed.

(** Either no row is selected, or the last entry selected from any list
    is its entry at the last position the mask keeps. *)
Lemma last_select (mask : list bool) :
  ((∀ i, mask !! i ≠ Some true) ∧ ∀ A (xs : list A), select mask xs = [])
  ∨ ∃ i, mask !! i = Some true ∧
         (∀ j, (i < j)%nat → mask !! j ≠ Some true) ∧
         ∀ A (xs : list A), length xs = length mask →
           last (select mask xs) = xs !! i.
Proof.
  induction mask as [|b mask [[Hnone Hnil]|(i & Hi & Hlast & Hsel)]].
  - left. split; [by intros i|]. by intros A [|x xs].
  - destruct b.
    + right. exists 0%nat. split; [done|]. split.
      * intros [|j] Hj; [lia|]. apply Hnone.
      * intros A [|x xs]; [done|]. simpl. by rewrite Hnil.
    + left. split.
      * intros [|j]; [done|]. apply Hnone.
      * intros A [|x xs]; [done|]. simpl. apply Hnil.
  - right. exists (S i). split; [done|]. split.
    + intros [|j] Hj; [lia|]. apply Hlast. lia.
    + intros A [|x xs]; [done|]. simpl. intros [= Hlen].
      specialize (Hsel A xs Hlen).
      destruct b; [|done].
      destruct (select mask xs) as [|y ys] eqn:Hys; [|done].
      simpl in Hsel. symmetry in Hsel.
      apply lookup_ge_None in Hsel. apply lookup_lt_Some in Hi. lia.
Qed.

(** *** Complete rows *)

Lemma complete_spec (d : DataFrame float) i :
  complete d i = true ↔
  ∀ key col, columns d !! key = Some col →
    ∃ x, col !! i = Some x ∧ isnan x = false.
Proof.
  unfold complete. rewrite forallb_forall. split.
  - intros Hall key col Hcol.
    specialize (Hall (key, col)). simpl in Hall.
    destruct (col !! i) as [x|].
    + exists x. split; [done|]. apply negb_true_iff, Hall.
      by apply list_elem_of_In, elem_of_map_to_list.
    + discriminate Hall. by apply list_elem_of_In, elem_of_map_to_list.
  - intros Hall [key col] Hin%list_elem_of_In%elem_of_map_to_list. simpl.
    destruct (Hall key col Hin) as (x & -> & Hx). by rewrite Hx.
Qed.

Lemma kept_lookup (d : DataFrame float) i :
  kept d !! i = Some true ↔ (i < length (index d))%nat ∧ complete d i = true.
Proof.
  unfold kept. rewrite list_lookup_fmap.
  destruct (decide (i < length (index d))%nat) as [Hi|Hi].
  - rewrite lookup_seq_lt by done. simpl. split; [by intros [= ->]|].
    by intros [_ ->].
  - rewrite lookup_seq_ge by lia. simpl. split; [done|]. by intros [? _].
Qed.

Lemma length_kept (d : DataFrame float) : length (kept d) = length (index d).
Proof. unfold kept. by rewrite length_fmap, length_seq. Qed.

Lemma dropna_has_no_nan_parts (d : DataFrame float) :
  (∀ key col x, columns (dropna d) !! key = Some col → x ∈ col →
                isnan x = false) ∧
  (well_formed d → well_formed (dropna d)).
Proof.
  unfold dropna. simpl. split.
  - intros key col x. rewrite lookup_fmap.
    intros (col0 & Hcol0 & ->)%fmap_Some Hx.
    destruct (elem_of_select _ _ _ Hx) as (i & Hi & Hxi).
    apply kept_lookup in Hi as [_ Hi].
    destruct (proj1 (complete_spec d i) Hi key col0 Hcol0) as (y & Hy & Hnan).
    congruence.
  - intros Hwf key col. simpl. rewrite lookup_fmap.
    intros (col0 & Hcol0 & ->)%fmap_Some.
    apply length_select_same. by eapply Hwf.
Qed.

Lemma select_sublist {A} (mask : list bool) (xs : list A) :
  select mask xs `sublist_of` xs.
Proof.
  revert xs. induction mask as [|b mask IH]; intros [|x xs]; simpl;
    try apply sublist_nil_l.
  destruct b; [by apply sublist_skip|by apply sublist_cons].
Qed.

(** X11: [dropna] keeps the labels, and in the frame it returns no value
    is NaN; on a frame whose columns have one value per row so does the
    frame returned, and each of its columns is a selection, in order, of
    the column it comes from. *)
Theorem dropna_has_no_nan (d : DataFrame float) :
  (∀ key, is_Some (columns (dropna d) !! key) ↔ is_Some (columns d !! key)) ∧
  (∀ key col x, columns (dropna d) !! key = Some col → x ∈ col →
                isnan x = false) ∧
  (∀ key col, columns (dropna d) !! key = Some col →
     ∃ col0, columns d !! key = Some col0 ∧ col `sublist_of` col0) ∧
  (well_formed d → well_formed (dropna d)).
Proof.
  destruct (dropna_has_no_nan_parts d) as [Hnan Hwf].
  split; [|split; [done|split; [|done]]].
  - intros key. unfold dropna. simpl. by rewrite lookup_fmap, fmap_is_Some.
  - intros key col. unfold dropna. simpl. rewrite lookup_fmap.
    intros (col0 & Hcol0 & ->)%fmap_Some. exists col0.
    split; [done|apply select_sublist].
Qed.

(** *** The latest row *)

Lemma iloc_lookup (d : DataFrame float) i key :
  iloc d i !! key = columns d !! key ≫= (.!! i).
Proof. unfold iloc. apply lookup_omap. Qed.

Lemma reads_iloc (d : DataFrame float) i sma_fast sma_slow :
  well_formed d → (i < length (index d))%nat →
  (∀ key, key ∈ Verdicts.labels_read sma_fast sma_slow →
          is_Some (columns d !! key)) →
  ∃ f s r m g c, reads (iloc d i) sma_fast sma_slow f s r m g c.
Proof.
  intros Hwf Hi Hlabels.
  assert (∀ key, key ∈ Verdicts.labels_read sma_fast sma_slow →
                 is_Some (iloc d i !! key)) as Hrow.
  { intros key [col Hcol]%Hlabels. rewrite iloc_lookup, Hcol. simpl.
    apply lookup_lt_is_Some_2. by rewrite (Hwf key col Hcol). }
  unfold Verdicts.labels_read in Hrow.
  destruct (Hrow (sma_label sma_fast)) as [f Hf]; [set_solver|].
  destruct (Hrow (sma_label sma_slow)) as [s Hs]; [set_solver|].
  destruct (Hrow "rsi") as [r Hr]; [set_solver|].
  destruct (Hrow "macd") as [m Hm]; [set_solver|].
  destruct (Hrow "macd_signal") as [g Hg]; [set_solver|].
  destruct (Hrow "close") as [c Hc]; [set_solver|].
  by exists f, s, r, m, g, c.
Qed.

(** On a frame that has the labels, either no row is complete and
    [iloc[-1]] raises, or the verdict is that of the last complete row
    and the timestamp is the one of that row. *)
Lemma classify_latest_cases (d : DataFrame float)
    sma_fast sma_slow rsi_upper rsi_lower :
  well_formed d →
  (∀ key, key ∈ Verdicts.labels_read sma_fast sma_slow →
          is_Some (columns d !! key)) →
  ((∀ i, (i < length (index d))%nat → complete d i = false) ∧
   classify_latest d sma_fast sma_slow rsi_upper rsi_lower
   = Fails IndexError)
  ∨ ∃ i timestamp v,
      (i < length (index d))%nat ∧ complete d i = true ∧
      (∀ j, (i < j < length (index d))%nat → complete d j = false) ∧
      index d !! i = Some timestamp ∧
      generate_signal (iloc d i) sma_fast sma_slow rsi_upper rsi_lower
      = Ok v ∧
      classify_latest d sma_fast sma_slow rsi_upper rsi_lower
      = Returns (v, timestamp).
Proof.
  intros Hwf Hlabels. unfold classify_latest, iloc_last, index_last.
  destruct (last_select (kept d))
    as [[Hnone Hnil]|(i & Hi & Hlast & Hsel)].
  - left. split.
    + intros i Hi. destruct (complete d i) eqn:Hc; [|done].
      destruct (Hnone i). by apply kept_lookup.
    + unfold dropna. simpl. by rewrite Hnil.
  - right. pose proof Hi as [Hlt Hc]%kept_lookup.
    destruct (lookup_lt_is_Some_2 (index d) i Hlt) as [ts Hts].
    pose proof (Hsel _ (index d) (eq_sym (length_kept d))) as Hidx.
    rewrite Hts in Hidx.
    assert (∃ n, length (select (kept d) (index d)) = S n) as [n Hn].
    { destruct (select (kept d) (index d)); [done|]. simpl. eauto. }
    assert (iloc (dropna d) n = iloc d i) as Hrow.
    { apply map_eq. intros key. rewrite !iloc_lookup. unfold dropna. simpl.
      rewrite lookup_fmap.
      destruct (columns d !! key) as [col|] eqn:Hcol; simpl; [|done].
      pose proof (Hwf key col Hcol) as Hlen.
      rewrite <- (Hsel _ col) by (by rewrite length_kept).
      rewrite last_lookup.
      by rewrite (length_select_same _ col (index d) Hlen), Hn. }
    destruct (reads_iloc d i sma_fast sma_slow Hwf Hlt Hlabels)
      as (f & s & r & m & g & c & Hreads).
    exists i, ts. eexists. split; [done|]. split; [done|]. split.
    { intros j [Hij Hj]. destruct (complete d j) eqn:Hcj; [|done].
      destruct (Hlast j Hij). by apply kept_lookup. }
    split; [done|]. split.
    { by apply (SignalProps.generate_signal_reads _ _ _ _ _ _ _ _ _ _ _
                  Hreads). }
    unfold dropna at 1. simpl. rewrite Hn. rewrite Hrow.
    rewrite (SignalProps.generate_signal_reads _ _ _ rsi_upper rsi_lower
               _ _ _ _ _ _ Hreads).
    unfold dropna. simpl. by rewrite Hidx.
Qed.

Lemma reads_complete (d : DataFrame float) i sma_fast sma_slow f s r m g c :
  complete d i = true →
  reads (iloc d i) sma_fast sma_slow f s r m g c →
  isnan f = false ∧ isnan s = false ∧ isnan r = false ∧
  isnan m = false ∧ isnan g = false ∧ isnan c = false.
Proof.
  intros Hc [Hf Hs Hr Hm Hg Hcl].
  assert (∀ key x, iloc d i !! key = Some x → isnan x = false) as Hrow.
  { intros key x. rewrite iloc_lookup.
    intros (col & Hcol & Hx)%bind_Some.
    destruct (proj1 (complete_spec d i) Hc key col Hcol) as (y & Hy & Hnan).
    congruence. }
  repeat split; eapply Hrow; eassumption.
Qed.

(** *** The frames of the pipeline *)

Lemma well_formed_ohlcv_frame raw : well_formed (ohlcv_frame raw).
Proof.
  intros key col. unfold ohlcv_frame. simpl. rewrite !lookup_insert.
  repeat case_decide; intros; simplify_eq; by rewrite !length_fmap.
Qed.

Lemma ohlcv_frame_close raw :
  columns (ohlcv_frame raw) !! "close" = Some (candle_close <$> raw).
Proof. done. Qed.

Lemma well_formed_table {cell} (ta : TaLib cell) (d : DataFrame cell) close
    sma_fast sma_slow rsi_period macd_fast macd_slow macd_signal :
  same_index ta → well_formed d → columns d !! "close" = Some close →
  well_formed (table ta close d sma_fast sma_slow rsi_period
                 macd_fast macd_slow macd_signal).
Proof.
  intros Hta Hwf Hclose key s.
  pose proof (Hwf _ _ Hclose) as Hlen.
  intros [[_ Hs]|Hs]%FrameProps.lookup_table_columns; simpl; [|by eapply Hwf].
  destruct Hta. rewrite !elem_of_cons, elem_of_nil in Hs.
  destruct Hs as [->|[->|[->|[->|[->|[->|[]]]]]]]; congruence.
Qed.

Lemma table_labels {cell} (ta : TaLib cell) (d : DataFrame cell) close
    sma_fast sma_slow rsi_period macd_fast macd_slow macd_signal :
  columns d !! "close" = Some close →
  ∀ key, key ∈ Verdicts.labels_read sma_fast sma_slow →
    is_Some (columns (table ta close d sma_fast sma_slow rsi_period
                        macd_fast macd_slow macd_signal) !! key).
Proof.
  intros Hclose key. unfold Verdicts.labels_read, table. simpl.
  rewrite !elem_of_cons, elem_of_nil.
  intros [->|[->|[->|[->|[->|[->|[]]]]]]];
    rewrite ?FrameProps.lookup_sma_fast, ?FrameProps.lookup_sma_slow,
      ?FrameProps.lookup_rsi, ?FrameProps.lookup_macd,
      ?FrameProps.lookup_macd_signal; try done.
  unfold indicator_columns. rewrite !lookup_insert_ne; first by eauto.
  all: try done.
  all: apply not_eq_sym, FrameProps.sma_label_not_fixed;
    rewrite !elem_of_cons; tauto.
Qed.

Section Main.
Context (ta : TaLib float) (raw : list Candle).
Context (sma_fast sma_slow rsi_period : Z) (rsi_upper rsi_lower : float).
Context (macd_fast macd_slow macd_signal : Z).

(** The frame of indicators [main] works on. *)
Local Abbreviation indicators :=
  (table ta (candle_close <$> raw) (ohlcv_frame raw)
     sma_fast sma_slow rsi_period macd_fast macd_slow macd_signal).

Lemma main_run σ :
  main ta raw sma_fast sma_slow rsi_period rsi_upper rsi_lower
    macd_fast macd_slow macd_signal σ
  = classify_latest indicators sma_fast sma_slow rsi_upper rsi_lower.
Proof.
  unfold main, fetch_ohlcv, alloc, latest_signal.
  erewrite FrameProps.compute_indicators_run by apply lookup_insert_eq.
  unfold indicator_table, getitem. rewrite ohlcv_frame_close. simpl.
  by rewrite lookup_insert_eq.
Qed.

Lemma length_index_indicators :
  length (index indicators) = length raw.
Proof. simpl. apply length_fmap. Qed.


Lemma main_cases :
  same_index ta →
  ((∀ i, (i < length raw)%nat → complete indicators i = false) ∧
   classify_latest indicators sma_fast sma_slow rsi_upper rsi_lower
   = Fails IndexError)
  ∨ ∃ i timestamp v,
      (i < length raw)%nat ∧ complete indicators i = true ∧
      (∀ j, (i < j < length raw)%nat → complete indicators j = false) ∧
      (candle_timestamp <$> raw) !! i = Some timestamp ∧
      generate_signal (iloc indicators i) sma_fast sma_slow
        rsi_upper rsi_lower = Ok v ∧
      classify_latest indicators sma_fast sma_slow rsi_upper rsi_lower
      = Returns (v, timestamp).
Proof.
  intros Hta. rewrite <- length_index_indicators.
  apply classify_latest_cases.
  - apply well_formed_table;
      [done|apply well_formed_ohlcv_frame|apply ohlcv_frame_close].
  - apply table_labels, ohlcv_frame_close.
Qed.



(** X14: in a verdict [main] prints no raw value is NaN, so no bias is
    "neutral" for want of a value: the MACD bias is "neutral" exactly
    when [macd] equals [macd_signal] and "bullish" exactly when it is
    above it, and the RSI bias is "overbought" exactly when [rsi] is
    above [rsi_upper] and "oversold" exactly when it is not and is below
    [rsi_lower]. *)
Theorem main_verdict_has_no_nan σ v timestamp :
  same_index ta →
  main ta raw sma_fast sma_slow rsi_period rsi_upper rsi_lower
    macd_fast macd_slow macd_signal σ = Returns (v, timestamp) →
  let d := details v in
  isnan (price d) = false ∧ isnan (rsi d) = false ∧
  isnan (Classifier.macd d) = false ∧
  isnan (Classifier.macd_signal d) = false ∧
  (macd_bias d = "neutral" ↔
     eq (Classifier.macd d) (Classifier.macd_signal d) = true) ∧
  (macd_bias d = "bullish" ↔
     gt (Classifier.macd d) (Classifier.macd_signal d) = true) ∧
  (rsi_bias d = "overbought" ↔ gt (rsi d) rsi_upper = true) ∧
  (rsi_bias d = "oversold" ↔
     gt (rsi d) rsi_upper = false ∧ lt (rsi d) rsi_lower = true).
Proof.
  intros Hta. rewrite main_run.
  destruct (main_cases Hta)
    as [[_ ->]|(i & ts & v' & Hi & Hc & Hlast & Hts & Hv & ->)]; [done|].
  intros [= -> ->].
  destruct (SignalProps.generate_signal_Ok_reads _ _ _ _ _ _ Hv)
    as (f & s & r & m & g & c & Hreads).
  rewrite (SignalProps.generate_signal_reads _ _ _ rsi_upper rsi_lower
             _ _ _ _ _ _ Hreads) in Hv.
  injection Hv as <-. simpl.
  destruct (reads_complete _ _ _ _ _ _ _ _ _ _ Hc Hreads)
    as (_ & _ & Hr & Hm & Hg & Hcl).
  destruct (SignalExtras.sma_rule_neutral m g Hm Hg)
    as (Hneutral & Hbullish & _).
  do 4 (split; [done|]).
  split; [exact Hneutral|]. split; [exact Hbullish|].
  unfold rsi_rule. rewrite Hr.
  destruct (gt r rsi_upper), (lt r rsi_lower); simpl;
    repeat split; try done; by intros [].
Qed.

End Main.


(** *** The sample candles *)

Lemma length_after_warm_up close window :
  length (PipelineExamples.after_warm_up close window) = length close.
Proof.
  unfold PipelineExamples.after_warm_up.
  rewrite length_app, length_replicate, length_drop. lia.
Qed.

Lemma echo_same_index : same_index PipelineExamples.echo.
Proof. split; intros; apply length_after_warm_up. Qed.

Example main_sample :
  main PipelineExamples.echo PipelineExamples.candles
    2 3 2 (of_Z 70) (of_Z 30) 2 3 2 ∅
  = Returns (PipelineExamples.sample_verdict, 180000).
Proof. vm_compute. reflexivity. Qed.

(** With a signal window of 3 the four candles are too few: every row
    has a NaN and [iloc[-1]] raises. *)
Example main_too_few_candles :
  main PipelineExamples.echo PipelineExamples.candles
    2 3 2 (of_Z 70) (of_Z 30) 2 3 3 ∅
  = Fails IndexError.
Proof. vm_compute. reflexivity. Qed.



Lemma main_verdict_has_no_nan_witness :
  let d := details PipelineExamples.sample_verdict in
  isnan (price d) = false ∧ isnan (rsi d) = false ∧
  isnan (Classifier.macd d) = false ∧
  isnan (Classifier.macd_signal d) = false ∧
  (macd_bias d = "neutral" ↔
     eq (Classifier.macd d) (Classifier.macd_signal d) = true) ∧
  (macd_bias d = "bullish" ↔
     gt (Classifier.macd d) (Classifier.macd_signal d) = true) ∧
  (rsi_bias d = "overbought" ↔ gt (rsi d) (of_Z 70) = true) ∧
  (rsi_bias d = "oversold" ↔
     gt (rsi d) (of_Z 70) = false ∧ lt (rsi d) (of_Z 30) = true).
Proof.
  apply (main_verdict_has_no_nan PipelineExamples.echo
           PipelineExamples.candles 2 3 2 (of_Z 70) (of_Z 30) 2 3 2 ∅
           PipelineExamples.sample_verdict 180000).
  - apply echo_same_index.
  - vm_compute; reflexivity.
Defined.

End PipelineProps.
